(** * Session manager of the R2R dashboard (UserContext.tsx, NavBar.tsx)

    A shallow embedding of the [UserProvider] component: the React state it
    owns, the browser's [sessionStorage], and the operations [login],
    [loginWithToken], [logout], [refreshTokenPeriodically], together with the
    start-up initialisers and the [effectiveRole] of the navigation bar.

    Conventions.
    - Strings are byte strings; a non-ASCII character is held in its UTF-8
      form, the way Rocq reads a string literal.
    - Every asynchronous operation is run to completion on the state of the
      latest render: operations do not interleave.
    - Whatever the environment decides (what the backend answers, what
      [Date.now()] returns) is an argument of the operation. *)

From Stdlib Require Import ZArith Ascii String List Lia Bool.
From stdpp Require Import base option gmap strings.
Import ListNotations.
#[local] Set Warnings "-register-all".
Local Open Scope Z_scope.
Local Open Scope list_scope.

(** ** JSON values, [JSON.parse] and [JSON.stringify] *)

Module Json.

(** A parsed JSON value. A number keeps its literal: no operation of the
    session manager looks at the value of a number, only at its type. An
    object keeps its members in the order of the text; a later member with the
    same key overrides an earlier one on lookup, as [JSON.parse] has it. *)
Inductive json : Type :=
  | JNull
  | JBool (b : bool)
  | JNum (literal : string)
  | JString (s : string)
  | JArray (items : list json)
  | JObject (members : list (string * json)).

Definition chars := list ascii.

(** The code of a character, least significant bit first. *)
Definition bit (b : bool) (n : N) : N :=
  match b, n with
  | false, N0 => N0
  | true, N0 => Npos xH
  | false, Npos p => Npos (xO p)
  | true, Npos p => Npos (xI p)
  end.

Definition code (c : ascii) : N :=
  let 'Ascii b0 b1 b2 b3 b4 b5 b6 b7 := c in
  bit b0 (bit b1 (bit b2 (bit b3 (bit b4 (bit b5 (bit b6 (bit b7 N0))))))).

Definition is_ws (c : ascii) : bool :=
  (code c =? 32)%N || (code c =? 9)%N || (code c =? 10)%N || (code c =? 13)%N.

Fixpoint skip_ws (l : chars) : chars :=
  match l with
  | c :: l' => if is_ws c then skip_ws l' else l
  | [] => []
  end.

Definition is_digit (c : ascii) : bool :=
  (48 <=? code c)%N && (code c <=? 57)%N.

Definition hex_value (c : ascii) : option N :=
  let n := code c in
  if (48 <=? n)%N && (n <=? 57)%N then Some (n - 48)%N
  else if (97 <=? n)%N && (n <=? 102)%N then Some (n - 87)%N
  else if (65 <=? n)%N && (n <=? 70)%N then Some (n - 55)%N
  else None.

Definition hex4 (a b c d : ascii) : option N :=
  match hex_value a, hex_value b, hex_value c, hex_value d with
  | Some x, Some y, Some z, Some w => Some (x * 4096 + y * 256 + z * 16 + w)%N
  | _, _, _, _ => None
  end.

(** The UTF-8 form of a UTF-16 code unit (below 65536). Each escaped code
    unit is decoded on its own: the two halves of an escaped surrogate pair
    are held as two three-byte forms. *)
Definition utf8 (n : N) : chars :=
  if (n <? 128)%N then [ascii_of_N n]
  else if (n <? 2048)%N then
    [ascii_of_N (192 + n / 64); ascii_of_N (128 + n mod 64)]
  else
    [ascii_of_N (224 + n / 4096); ascii_of_N (128 + (n / 64) mod 64);
     ascii_of_N (128 + n mod 64)].

(** The character an escape letter stands for, [\u] apart. *)
Definition simple_escape (c : ascii) : option ascii :=
  let n := code c in
  if (n =? 34)%N then Some c                       (* quote *)
  else if (n =? 92)%N then Some c                  (* backslash *)
  else if (n =? 47)%N then Some c                  (* slash *)
  else if (n =? 98)%N then Some ("008"%char)     (* \b *)
  else if (n =? 102)%N then Some ("012"%char)   (* \f *)
  else if (n =? 110)%N then Some ("010"%char)   (* \n *)
  else if (n =? 114)%N then Some ("013"%char)   (* \r *)
  else if (n =? 116)%N then Some ("009"%char)    (* \t *)
  else None.

Definition prepend (pre : chars) (r : option (chars * chars))
  : option (chars * chars) :=
  match r with
  | Some (s, rest) => Some (pre ++ s, rest)
  | None => None
  end.

(** The characters of a string literal, read after its opening quote up to
    and including the closing one. [None]: the literal is not well formed. *)
Fixpoint parse_chars (l : chars) : option (chars * chars) :=
  match l with
  | [] => None
  | c :: l1 =>
    if (code c =? 34)%N then Some ([], l1)
    else if (code c =? 92)%N then
      match l1 with
      | [] => None
      | e :: l2 =>
        match simple_escape e with
        | Some ch => prepend [ch] (parse_chars l2)
        | None =>
          if (code e =? 117)%N then
            match l2 with
            | h1 :: h2 :: h3 :: h4 :: l3 =>
              match hex4 h1 h2 h3 h4 with
              | Some n => prepend (utf8 n) (parse_chars l3)
              | None => None
              end
            | _ => None
            end
          else None
        end
      end
    else if (code c <? 32)%N then None
    else prepend [c] (parse_chars l1)
  end.

Fixpoint take_digits (l : chars) : chars * chars :=
  match l with
  | c :: l' =>
    if is_digit c then let '(ds, rest) := take_digits l' in (c :: ds, rest)
    else ([], l)
  | [] => ([], [])
  end.

(** A number literal: an optional minus sign; an integer part, which is 0 or
    a digit from 1 to 9 followed by digits; an optional fraction, a dot and at
    least one digit; an optional exponent, e or E, an optional sign and at
    least one digit. *)
Definition parse_int_part (l : chars) : option (chars * chars) :=
  match l with
  | c :: l1 =>
    if (code c =? 48)%N then Some ([c], l1)
    else if is_digit c then let '(ds, rest) := take_digits l1 in Some (c :: ds, rest)
    else None
  | [] => None
  end.

Definition parse_frac_part (l : chars) : option (chars * chars) :=
  match l with
  | c :: l1 =>
    if (code c =? 46)%N then
      match take_digits l1 with
      | ([], _) => None
      | (ds, rest) => Some (c :: ds, rest)
      end
    else Some ([], l)
  | [] => Some ([], l)
  end.

Definition parse_exp_digits (pre l : chars) : option (chars * chars) :=
  match take_digits l with
  | ([], _) => None
  | (ds, rest) => Some (pre ++ ds, rest)
  end.

Definition parse_exp_part (l : chars) : option (chars * chars) :=
  match l with
  | c :: l1 =>
    if (code c =? 101)%N || (code c =? 69)%N then
      match l1 with
      | s :: l2 =>
        if (code s =? 43)%N || (code s =? 45)%N then parse_exp_digits [c; s] l2
        else parse_exp_digits [c] l1
      | [] => None
      end
    else Some ([], l)
  | [] => Some ([], l)
  end.

Definition parse_unsigned (l : chars) : option (chars * chars) :=
  match parse_int_part l with
  | Some (i, l1) =>
    match parse_frac_part l1 with
    | Some (f, l2) =>
      match parse_exp_part l2 with
      | Some (e, l3) => Some (i ++ f ++ e, l3)
      | None => None
      end
    | None => None
    end
  | None => None
  end.

Definition parse_number (l : chars) : option (chars * chars) :=
  match l with
  | c :: l1 =>
    if (code c =? 45)%N then prepend [c] (parse_unsigned l1)
    else parse_unsigned l
  | [] => None
  end.

(** [expect w l]: [l] with the prefix [w] removed. *)
Fixpoint expect (w l : chars) : option chars :=
  match w, l with
  | [], _ => Some l
  | a :: w', b :: l' => if (code a =? code b)%N then expect w' l' else None
  | _ :: _, [] => None
  end.

Inductive presult : Type :=
  | POk (v : json) (rest : chars)
  | PSyntaxError
  | POutOfFuel.

Definition str (l : chars) : string := string_of_list_ascii l.

Definition chr (s : string) : chars := list_ascii_of_string s.

(** The recursive-descent parser: [parse_members] reads the members of an
    object after its opening brace, [parse_elements] the rest of an array
    after an element. Each recursive call is made after at least one more
    character has been read, so that a fuel above the length of the text is
    never used up ([parse_fuel] below). *)
Fixpoint parse_value (fuel : nat) (l : chars) : presult :=
  match fuel with
  | O => POutOfFuel
  | S f =>
    match skip_ws l with
    | [] => PSyntaxError
    | c :: l1 =>
      if (code c =? 123)%N then                       (* { *)
        match skip_ws l1 with
        | c' :: l2 =>
          if (code c' =? 125)%N then POk (JObject []) l2
          else parse_members f (c' :: l2) []
        | [] => PSyntaxError
        end
      else if (code c =? 91)%N then                   (* [ *)
        match skip_ws l1 with
        | c' :: l2 =>
          if (code c' =? 93)%N then POk (JArray []) l2
          else
            match parse_value f (c' :: l2) with
            | POk v l3 => parse_elements f l3 [v]
            | PSyntaxError => PSyntaxError
            | POutOfFuel => POutOfFuel
            end
        | [] => PSyntaxError
        end
      else if (code c =? 34)%N then                   (* string *)
        match parse_chars l1 with
        | Some (s, l2) => POk (JString (str s)) l2
        | None => PSyntaxError
        end
      else if (code c =? 116)%N then                  (* true *)
        match expect (chr "rue") l1 with
        | Some l2 => POk (JBool true) l2
        | None => PSyntaxError
        end
      else if (code c =? 102)%N then                  (* false *)
        match expect (chr "alse") l1 with
        | Some l2 => POk (JBool false) l2
        | None => PSyntaxError
        end
      else if (code c =? 110)%N then                  (* null *)
        match expect (chr "ull") l1 with
        | Some l2 => POk JNull l2
        | None => PSyntaxError
        end
      else
        match parse_number (c :: l1) with
        | Some (lit, l2) => POk (JNum (str lit)) l2
        | None => PSyntaxError
        end
    end
  end
with parse_members (fuel : nat) (l : chars) (acc : list (string * json)) : presult :=
  match fuel with
  | O => POutOfFuel
  | S f =>
    match skip_ws l with
    | c :: l1 =>
      if (code c =? 34)%N then
        match parse_chars l1 with
        | Some (k, l2) =>
          match skip_ws l2 with
          | c2 :: l3 =>
            if (code c2 =? 58)%N then                 (* : *)
              match parse_value f l3 with
              | POk v l4 =>
                match skip_ws l4 with
                | c4 :: l5 =>
                  if (code c4 =? 44)%N then           (* , *)
                    parse_members f l5 (acc ++ [(str k, v)])
                  else if (code c4 =? 125)%N then     (* } *)
                    POk (JObject (acc ++ [(str k, v)])) l5
                  else PSyntaxError
                | [] => PSyntaxError
                end
              | PSyntaxError => PSyntaxError
              | POutOfFuel => POutOfFuel
              end
            else PSyntaxError
          | [] => PSyntaxError
          end
        | None => PSyntaxError
        end
      else PSyntaxError
    | [] => PSyntaxError
    end
  end
with parse_elements (fuel : nat) (l : chars) (acc : list json) : presult :=
  match fuel with
  | O => POutOfFuel
  | S f =>
    match skip_ws l with
    | c :: l1 =>
      if (code c =? 44)%N then                        (* , *)
        match parse_value f l1 with
        | POk v l2 => parse_elements f l2 (acc ++ [v])
        | PSyntaxError => PSyntaxError
        | POutOfFuel => POutOfFuel
        end
      else if (code c =? 93)%N then POk (JArray acc) l1
      else PSyntaxError
    | [] => PSyntaxError
    end
  end.

Definition parse_text (l : chars) : presult :=
  match parse_value (S (List.length l)) l with
  | POk v rest =>
    match skip_ws rest with
    | [] => POk v []
    | _ :: _ => PSyntaxError
    end
  | r => r
  end.

(** [JSON.parse]: [None] stands for the [SyntaxError] it throws. *)
Definition JSON_parse (s : string) : option json :=
  match parse_text (chr s) with
  | POk v _ => Some v
  | _ => None
  end.

(** [JSON.stringify] quotes a string: the quote and the backslash are
    escaped, a control character becomes its short escape or [\u00XX]. *)
Definition hex_digit (d : N) : ascii :=
  if (d <? 10)%N then ascii_of_N (48 + d) else ascii_of_N (87 + d).

Definition escape_char (c : ascii) : chars :=
  let n := code c in
  let bs := "\"%char in
  if (n =? 34)%N then [bs; c]
  else if (n =? 92)%N then [bs; c]
  else if (n =? 8)%N then [bs; "b"%char]
  else if (n =? 12)%N then [bs; "f"%char]
  else if (n =? 10)%N then [bs; "n"%char]
  else if (n =? 13)%N then [bs; "r"%char]
  else if (n =? 9)%N then [bs; "t"%char]
  else if (n <? 32)%N then
    [bs; "u"%char; "0"%char; "0"%char;
     hex_digit (n / 16); hex_digit (n mod 16)]
  else [c].

Definition escape (s : chars) : chars := flat_map escape_char s.

(** The double quote, by its code. *)
Abbreviation dquote := ("034"%char).

Definition quote (s : chars) : chars :=
  dquote :: escape s ++ [dquote].

Fixpoint join_comma (parts : list chars) : chars :=
  match parts with
  | [] => []
  | [p] => p
  | p :: ps => p ++ ","%char :: join_comma ps
  end.

(** The compact text of a value, members in their order. (A number is
    written as its literal.) *)
Fixpoint stringify (v : json) : chars :=
  match v with
  | JNull => chr "null"
  | JBool true => chr "true"
  | JBool false => chr "false"
  | JNum lit => chr lit
  | JString s => quote (chr s)
  | JArray vs => "["%char :: join_comma (map stringify vs) ++ ["]"%char]
  | JObject kvs =>
    "{"%char
      :: join_comma
           (map (fun kv => let '(k, v') := kv in
                           quote (chr k) ++ ":"%char :: stringify v') kvs)
      ++ ["}"%char]
  end.

Definition JSON_stringify (v : json) : string := str (stringify v).

(** A result that is not a lack of fuel and that, when it is a value, has
    read at least one character of [l]. *)
Definition productive (res : presult) (l : chars) : Prop :=
  res <> POutOfFuel /\
  forall v r, res = POk v r -> (length r < length l)%nat.

Definition scalar (v : json) : bool :=
  match v with
  | JNull | JBool _ | JString _ => true
  | _ => false
  end.

Definition member_text (kv : string * json) : chars :=
  let '(k, v) := kv in quote (chr k) ++ ":"%char :: stringify v.

End Json.
Import Json.

(** ** The data of the session manager *)

(** ['admin' | 'user']: the type of [userRole] (when not null) and of
    [viewMode]. *)
Inductive Role : Type := admin | user.

Definition ViewMode : Type := Role.

Definition Role_eqb (a b : Role) : bool :=
  match a, b with
  | admin, admin | user, user => true
  | _, _ => false
  end.

Definition Role_name (r : Role) : string :=
  match r with admin => "admin" | user => "user" end.

(** [AuthState] of [@/types]. *)
Record AuthState : Type := {
  isAuthenticated : bool;
  email : option string;
  userRole : option Role;
}.

(** The unauthenticated value the provider starts from and [logout] resets
    to. *)
Definition defaultAuthState : AuthState :=
  {| isAuthenticated := false; email := None; userRole := None |}.

(** A JavaScript value that may be [undefined] ([None]). *)
Definition jsval : Type := option json.

(** The [r2rClient] handle, as far as the provider uses it: the base URL it
    was constructed with and the two tokens [setTokens] stores. *)
Record Client : Type := {
  baseUrl : jsval;
  accessToken : option string;
  refreshToken : option string;
}.

Definition new_r2rClient (url : jsval) : Client :=
  {| baseUrl := url; accessToken := None; refreshToken := None |}.

Definition setTokens (access refresh : string) (c : Client) : Client :=
  {| baseUrl := baseUrl c; accessToken := Some access; refreshToken := Some refresh |}.

(** A value thrown by the backend client or by the runtime, with what the
    handlers test on it: [instanceof Error], the [status] property when it is
    there (a status that is not a number behaves as one other than 403), and
    [instanceof AuthenticationError]. *)
Record Exn : Type := {
  message : string;
  instanceofError : bool;
  status : option Z;
  instanceofAuthenticationError : bool;
}.

Definition SyntaxError : Exn :=
  {| message := "SyntaxError"; instanceofError := true; status := None;
     instanceofAuthenticationError := false |}.

Definition Error (msg : string) : Exn :=
  {| message := msg; instanceofError := true; status := None;
     instanceofAuthenticationError := false |}.

(** What an awaited backend call does. *)
Inductive Response (A : Type) : Type :=
  | Resolves (a : A)
  | Rejects (e : Exn).

Arguments Resolves {A} a.

Arguments Rejects {A} e.

(** [{access_token: {token}, refresh_token: {token}}]. *)
Record Tokens : Type := {
  access_token : string;
  refresh_token : string;
}.

Inductive BackendCall : Type :=
  | client_login (c : Client) (email password : string)
  | client_loginWithToken (c : Client) (token : string)
  | client_appSettings (c : Client)
  | client_logout (c : Client)
  | client_refreshAccessToken (c : Client)
  | client_register (c : Client) (email password : string).

(** What an operation does that is seen from outside: console output and
    backend calls, in order. *)
Inductive Event : Type :=
  | console_log (msg : string)
  | console_warn (msg : string)
  | console_error (msg : string)
  | backend (call : BackendCall).

(** The state of the provider ([useState] cells) and [sessionStorage]. *)
Record World : Type := {
  sessionStorage : gmap string string;
  authState : AuthState;
  client : option Client;
  pipeline : json;
  viewMode : ViewMode;
  lastLoginTime : option Z;
  selectedModel : string;
  isReady : bool;
}.

(** ** A monad for the effects: state, exceptions, a trace of events *)

Inductive Outcome (A : Type) : Type :=
  | Return (a : A)
  | Throw (e : Exn).

Arguments Return {A} a.

Arguments Throw {A} e.

Definition M (A : Type) : Type := World -> Outcome A * World * list Event.

Definition ret {A} (a : A) : M A := fun w => (Return a, w, []).

Definition throw {A} (e : Exn) : M A := fun w => (Throw e, w, []).

Definition bind {A B} (m : M A) (k : A -> M B) : M B :=
  fun w =>
    match m w with
    | (Return a, w1, t1) => let '(o, w2, t2) := k a w1 in (o, w2, t1 ++ t2)
    | (Throw e, w1, t1) => (Throw e, w1, t1)
    end.

(** [try { m } catch (error) { handler error }]. *)
Definition try_catch {A} (m : M A) (handler : Exn -> M A) : M A :=
  fun w =>
    match m w with
    | (Return a, w1, t1) => (Return a, w1, t1)
    | (Throw e, w1, t1) => let '(o, w2, t2) := handler e w1 in (o, w2, t1 ++ t2)
    end.

Notation "x <- m ;; k" := (bind m (fun x => k))
  (at level 100, m at next level, k at level 200, right associativity).

Notation "m ;; k" := (bind m (fun _ => k))
  (at level 100, k at level 200, right associativity).

Definition emit (e : Event) : M unit := fun w => (Return tt, w, [e]).

Definition read {A} (f : World -> A) : M A := fun w => (Return (f w), w, []).

Definition modify (f : World -> World) : M unit := fun w => (Return tt, f w, []).

(** [await] of a backend call: the call is made, then the promise resolves
    or rejects. *)
Definition await {A} (call : BackendCall) (r : Response A) : M A :=
  emit (backend call) ;;
  match r with
  | Resolves a => ret a
  | Rejects e => throw e
  end.

(** The setters of the [useState] cells and the methods of [sessionStorage]. *)
Definition with_sessionStorage (f : gmap string string -> gmap string string)
  (w : World) : World :=
  {| sessionStorage := f (sessionStorage w); authState := authState w;
     client := client w; pipeline := pipeline w; viewMode := viewMode w;
     lastLoginTime := lastLoginTime w; selectedModel := selectedModel w;
     isReady := isReady w |}.

Definition sessionStorage_getItem (k : string) : M (option string) :=
  read (fun w => sessionStorage w !! k).

Definition sessionStorage_setItem (k v : string) : M unit :=
  modify (with_sessionStorage (insert k v)).

Definition sessionStorage_removeItem (k : string) : M unit :=
  modify (with_sessionStorage (delete k)).

Definition setAuthState (a : AuthState) : M unit :=
  modify (fun w =>
    {| sessionStorage := sessionStorage w; authState := a;
       client := client w; pipeline := pipeline w; viewMode := viewMode w;
       lastLoginTime := lastLoginTime w; selectedModel := selectedModel w;
       isReady := isReady w |}).

Definition setClient (c : option Client) : M unit :=
  modify (fun w =>
    {| sessionStorage := sessionStorage w; authState := authState w;
       client := c; pipeline := pipeline w; viewMode := viewMode w;
       lastLoginTime := lastLoginTime w; selectedModel := selectedModel w;
       isReady := isReady w |}).

Definition setPipeline (p : json) : M unit :=
  modify (fun w =>
    {| sessionStorage := sessionStorage w; authState := authState w;
       client := client w; pipeline := p; viewMode := viewMode w;
       lastLoginTime := lastLoginTime w; selectedModel := selectedModel w;
       isReady := isReady w |}).

Definition setViewMode (m : ViewMode) : M unit :=
  modify (fun w =>
    {| sessionStorage := sessionStorage w; authState := authState w;
       client := client w; pipeline := pipeline w; viewMode := m;
       lastLoginTime := lastLoginTime w; selectedModel := selectedModel w;
       isReady := isReady w |}).

Definition setLastLoginTime (t : option Z) : M unit :=
  modify (fun w =>
    {| sessionStorage := sessionStorage w; authState := authState w;
       client := client w; pipeline := pipeline w; viewMode := viewMode w;
       lastLoginTime := t; selectedModel := selectedModel w;
       isReady := isReady w |}).

Definition setIsReady (b : bool) : M unit :=
  modify (fun w =>
    {| sessionStorage := sessionStorage w; authState := authState w;
       client := client w; pipeline := pipeline w; viewMode := viewMode w;
       lastLoginTime := lastLoginTime w; selectedModel := selectedModel w;
       isReady := b |}).

(** The three parts of what a run gives. *)
Definition outcome_of {A} (r : Outcome A * World * list Event) : Outcome A := fst (fst r).

Definition world_of {A} (r : Outcome A * World * list Event) : World := snd (fst r).

Definition trace_of {A} (r : Outcome A * World * list Event) : list Event := snd r.

(** ** The shape check (UserContext.tsx, lines 14 to 23) *)

Inductive jstype : Type :=
  | type_undefined | type_object | type_boolean | type_number | type_string.

Definition typeof (v : jsval) : jstype :=
  match v with
  | None => type_undefined
  | Some JNull => type_object
  | Some (JBool _) => type_boolean
  | Some (JNum _) => type_number
  | Some (JString _) => type_string
  | Some (JArray _) => type_object
  | Some (JObject _) => type_object
  end.

Definition jstype_eqb (a b : jstype) : bool :=
  match a, b with
  | type_undefined, type_undefined | type_object, type_object
  | type_boolean, type_boolean | type_number, type_number
  | type_string, type_string => true
  | _, _ => false
  end.

(** The last member with key [k]. *)
Fixpoint lookup_member (k : string) (members : list (string * json)) : jsval :=
  match members with
  | [] => None
  | (k', v) :: rest =>
    match lookup_member k rest with
    | Some v' => Some v'
    | None => if String.eqb k k' then Some v else None
    end
  end.

(** [obj.k] on a value [JSON.parse] returned, for the three names the
    provider reads ([isAuthenticated], [email], [userRole]) and
    [deploymentUrl]: an object has the property when the text had the member,
    and none of these names is inherited by an object, an array or a
    primitive. *)
Definition prop (obj : json) (k : string) : jsval :=
  match obj with
  | JObject members => lookup_member k members
  | _ => None
  end.

Definition is_null (v : jsval) : bool :=
  match v with Some JNull => true | _ => false end.

(** [roles.includes(x)] for an array of strings and nulls ([None] is
    [null]). *)
Definition includes (roles : list (option string)) (x : jsval) : bool :=
  existsb (fun r =>
    match r, x with
    | Some s, Some (JString s') => String.eqb s s'
    | None, Some JNull => true
    | _, _ => false
    end) roles.

Definition isAuthState (obj : json) : bool :=
  let validRoles := [Some "admin"; Some "user"; None] in
  jstype_eqb (typeof (Some obj)) type_object &&
  negb (is_null (Some obj)) &&
  jstype_eqb (typeof (prop obj "isAuthenticated")) type_boolean &&
  (jstype_eqb (typeof (prop obj "email")) type_string || is_null (prop obj "email")) &&
  (includes validRoles (prop obj "userRole") || is_null (prop obj "userRole")).

(** An [AuthState] as the object [JSON.stringify] is given, and the fields of
    an object that passed [isAuthState]. *)
Definition json_of_AuthState (a : AuthState) : json :=
  JObject
    [("isAuthenticated", JBool (isAuthenticated a));
     ("email", match email a with Some s => JString s | None => JNull end);
     ("userRole", match userRole a with
                  | Some r => JString (Role_name r)
                  | None => JNull
                  end)].

Definition AuthState_of_json (obj : json) : AuthState :=
  {| isAuthenticated :=
       match prop obj "isAuthenticated" with Some (JBool b) => b | _ => false end;
     email :=
       match prop obj "email" with Some (JString s) => Some s | _ => None end;
     userRole :=
       match prop obj "userRole" with
       | Some (JString s) =>
         if String.eqb s "admin" then Some admin
         else if String.eqb s "user" then Some user
         else None
       | _ => None
       end |}.

(** [JSON.parse] as an effect: it throws a [SyntaxError] on a text that is
    not JSON. *)
Definition JSON_parse_or_throw (s : string) : M json :=
  match JSON_parse s with
  | Some v => ret v
  | None => throw SyntaxError
  end.

(** A string is truthy when it is not empty. *)
Definition nonempty (s : string) : bool := negb (String.eqb s "").

(** ** The initialisers of the state cells (lines 53 to 97), in a browser *)

Definition initPipeline : M json :=
  storedPipeline <- sessionStorage_getItem "pipeline" ;;
  match storedPipeline with
  | Some s => if nonempty s then JSON_parse_or_throw s else ret JNull
  | None => ret JNull
  end.

Definition initSelectedModel : M string :=
  stored <- sessionStorage_getItem "selectedModel" ;;
  match stored with
  | Some s => if nonempty s then ret s else ret ""
  | None => ret ""
  end.

Definition initAuthState : M AuthState :=
  storedAuthState <- sessionStorage_getItem "authState" ;;
  found <-
    match storedAuthState with
    | Some s =>
      if nonempty s then
        parsed <- JSON_parse_or_throw s ;;
        if isAuthState parsed then ret (Some (AuthState_of_json parsed))
        else
          emit (console_warn
            "Invalid authState found in sessionStorage. Resetting to default.") ;;
          ret None
      else ret None
    | None => ret None
    end ;;
  match found with
  | Some parsed => ret parsed
  | None => ret defaultAuthState
  end.

(** The first render of [UserProvider]: the initialisers run in the order of
    the [useState] calls. *)
Definition UserProvider_init : M unit :=
  p <- initPipeline ;;
  m <- initSelectedModel ;;
  a <- initAuthState ;;
  modify (fun w =>
    {| sessionStorage := sessionStorage w; authState := a; client := None;
       pipeline := p; viewMode := admin; lastLoginTime := None;
       selectedModel := m; isReady := false |}).

(** A page load on the storage [store]. *)
Definition blank (store : gmap string string) : World :=
  {| sessionStorage := store; authState := defaultAuthState; client := None;
     pipeline := JNull; viewMode := admin; lastLoginTime := None;
     selectedModel := ""; isReady := false |}.

Definition startup (store : gmap string string) : Outcome unit * World * list Event :=
  UserProvider_init (blank store).

(** ** The operations *)

Record LoginResult : Type := {
  success : bool;
  result_userRole : Role;
}.

(** The role probe of [login] and [loginWithToken] (lines 120 to 134 and 174
    to 188, the same text). *)
Definition is403 (error : Exn) : bool :=
  instanceofError error &&
  match status error with Some n => n =? 403 | None => false end.

Definition probeRole (newClient : Client) (appSettings : Response unit) : M Role :=
  try_catch
    (await (client_appSettings newClient) appSettings ;;
     ret admin)
    (fun error =>
       (if is403 error then emit (console_log "User does not have admin privileges")
        else emit (console_error "Unexpected error when checking user role:")) ;;
       ret user).

Definition Pipeline (deploymentUrl : string) : json :=
  JObject [("deploymentUrl", JString deploymentUrl)].

(** [login] (lines 99 to 157). [loginResponse] and [appSettings] are what the
    backend answers, [now] what [Date.now()] returns. *)
Definition login (email password instanceUrl : string)
    (loginResponse : Response Tokens) (appSettings : Response unit) (now : Z)
  : M LoginResult :=
  emit (console_log ("Attempting login for " +:+ email +:+ " to " +:+ instanceUrl)) ;;
  let newClient := new_r2rClient (Some (JString instanceUrl)) in
  try_catch
    (tokens <- await (client_login newClient email password) loginResponse ;;
     sessionStorage_setItem "accessToken" (access_token tokens) ;;
     sessionStorage_setItem "refreshToken" (refresh_token tokens) ;;
     let newClient := setTokens (access_token tokens) (refresh_token tokens) newClient in
     setClient (Some newClient) ;;
     userRole <- probeRole newClient appSettings ;;
     let newAuthState :=
       {| isAuthenticated := true; email := Some email; userRole := Some userRole |} in
     setAuthState newAuthState ;;
     sessionStorage_setItem "authState" (JSON_stringify (json_of_AuthState newAuthState)) ;;
     setLastLoginTime (Some now) ;;
     let newPipeline := Pipeline instanceUrl in
     setPipeline newPipeline ;;
     sessionStorage_setItem "pipeline" (JSON_stringify newPipeline) ;;
     ret {| success := true; result_userRole := userRole |})
    (fun error =>
       emit (console_error "Login failed:") ;;
       throw error).

(** [loginWithToken] (lines 159 to 211). The exchange answers with an access
    token only. *)
Definition loginWithToken (token instanceUrl : string)
    (loginResponse : Response string) (appSettings : Response unit) (now : Z)
  : M LoginResult :=
  emit (console_log ("Attempting login with token to " +:+ instanceUrl)) ;;
  let newClient := new_r2rClient (Some (JString instanceUrl)) in
  try_catch
    (result <- await (client_loginWithToken newClient token) loginResponse ;;
     sessionStorage_setItem "accessToken" result ;;
     let newClient := setTokens result "" newClient in
     setClient (Some newClient) ;;
     userRole <- probeRole newClient appSettings ;;
     let newAuthState :=
       {| isAuthenticated := true; email := Some ""; userRole := Some userRole |} in
     setAuthState newAuthState ;;
     sessionStorage_setItem "authState" (JSON_stringify (json_of_AuthState newAuthState)) ;;
     setLastLoginTime (Some now) ;;
     let newPipeline := Pipeline instanceUrl in
     setPipeline newPipeline ;;
     sessionStorage_setItem "pipeline" (JSON_stringify newPipeline) ;;
     ret {| success := true; result_userRole := userRole |})
    (fun error =>
       emit (console_error "Login with token failed:") ;;
       throw error).

(** [logout] (lines 213 to 234). *)
Definition logout (logoutResponse : Response unit) : M unit :=
  emit (console_log "Logging out user") ;;
  c <- read client ;;
  a <- read authState ;;
  match c with
  | Some c =>
    if isAuthenticated a then
      try_catch
        (await (client_logout c) logoutResponse)
        (fun error => emit (console_error "Logout failed:"))
    else ret tt
  | None => ret tt
  end ;;
  setAuthState {| isAuthenticated := false; email := None; userRole := None |} ;;
  sessionStorage_removeItem "pipeline" ;;
  sessionStorage_removeItem "authState" ;;
  sessionStorage_removeItem "accessToken" ;;
  sessionStorage_removeItem "refreshToken" ;;
  setPipeline JNull ;;
  setClient None ;;
  emit (console_log "User logged out successfully").

(** [lastLoginTime && Date.now() - lastLoginTime < 5 * 60 * 1000]: the time
    is tested for truthiness, so that 0 counts as no time at all. *)
Definition within_five_minutes (lastLoginTime : option Z) (now : Z) : bool :=
  match lastLoginTime with
  | Some t => negb (t =? 0) && (now - t <? 5 * 60 * 1000)
  | None => false
  end.

(** [refreshTokenPeriodically] (lines 256 to 296). [now] is [Date.now()] at
    the guard, [now'] at the end of a successful refresh; [logoutResponse]
    answers the [client.logout()] of the [logout] a failure ends in. *)
Definition refreshTokenPeriodically (now : Z) (refreshResponse : Response Tokens)
    (now' : Z) (logoutResponse : Response unit) : M unit :=
  a <- read authState ;;
  c <- read client ;;
  t <- read lastLoginTime ;;
  match c with
  | Some c =>
    if isAuthenticated a then
      if within_five_minutes t now then ret tt
      else
        emit (console_log "Attempting to refresh token") ;;
        try_catch
          (newTokens <- await (client_refreshAccessToken c) refreshResponse ;;
           sessionStorage_setItem "accessToken" (access_token newTokens) ;;
           sessionStorage_setItem "refreshToken" (refresh_token newTokens) ;;
           setClient (Some (setTokens (access_token newTokens) (refresh_token newTokens) c)) ;;
           setLastLoginTime (Some now') ;;
           emit (console_log "Token refreshed successfully"))
          (fun error =>
             emit (console_error "Failed to refresh token:") ;;
             if instanceofAuthenticationError error then
               emit (console_log "Authentication error, attempting to re-login") ;;
               try_catch
                 (throw (Error "Silent re-authentication not implemented"))
                 (fun loginError =>
                    emit (console_error "Failed to re-authenticate:") ;;
                    logout logoutResponse)
             else logout logoutResponse)
    else ret tt
  | None => ret tt
  end.

(** [if (newClient)] on what [new r2rClient(...)] returned: an object is
    truthy. *)
Definition object_truthy (c : Client) : bool := true.

(** [register] (lines 236 to 254). *)
Definition register (email password instanceUrl : string)
    (registerResponse : Response unit) : M unit :=
  emit (console_log ("Attempting to register user: " +:+ email)) ;;
  let newClient := new_r2rClient (Some (JString instanceUrl)) in
  if object_truthy newClient then
    try_catch
      (await (client_register newClient email password) registerResponse ;;
       emit (console_log "User registered successfully"))
      (fun error =>
         emit (console_error "Failed to create user:") ;;
         throw error)
  else
    emit (console_error "Client is not initialized") ;;
    throw (Error "Client is not initialized").

(** [isSuperUser] (lines 93 to 95). *)
Definition isSuperUser (w : World) : bool :=
  match userRole (authState w) with
  | Some r => Role_eqb r admin
  | None => false
  end && Role_eqb (viewMode w) admin.

(** ** The navigation bar (NavBar.tsx, lines 108 to 110) *)

Definition isAdmin (w : World) : bool :=
  isAuthenticated (authState w) &&
  match userRole (authState w) with
  | Some r => Role_eqb r admin
  | None => false
  end.

(** [viewMode === 'user' ? 'user' : authState.userRole || 'user']. *)
Definition effectiveRole (viewMode : ViewMode) (userRole : option Role) : Role :=
  if Role_eqb viewMode user then user
  else match userRole with
       | Some r => r
       | None => user
       end.

(** ** Rebuilding the handle, and the steps of a session *)

(** The operations of a session, each with what the environment answers. *)
Inductive Op : Type :=
  | op_login (email password instanceUrl : string)
      (loginResponse : Response Tokens) (appSettings : Response unit) (now : Z)
  | op_loginWithToken (token instanceUrl : string)
      (loginResponse : Response string) (appSettings : Response unit) (now : Z)
  | op_logout (logoutResponse : Response unit)
  | op_refreshTokenPeriodically (now : Z) (refreshResponse : Response Tokens)
      (now' : Z) (logoutResponse : Response unit)
  | op_setViewMode (mode : ViewMode)
  | op_effects
  | op_routeChange
  | op_register (email password instanceUrl : string)
      (registerResponse : Response unit).

Section Provider.

(** Whether the number a literal denotes is truthy, that is, is not zero once
    rounded to a double. The rounding is not modelled: the test is a
    parameter. *)
Variable number_truthy : string -> bool.

Definition truthy (v : json) : bool :=
  match v with
  | JNull => false
  | JBool b => b
  | JNum lit => number_truthy lit
  | JString s => nonempty s
  | JArray _ => true
  | JObject _ => true
  end.

(** [!client]. *)
Definition missing {A} (c : option A) : bool :=
  match c with
  | Some _ => false
  | None => true
  end.

(** The body shared by the effect of lines 302 to 313 and by
    [handleRouteChange] (lines 316 to 327): with a session and a pipeline
    but no handle, build a handle from the pipeline and the stored tokens. *)
Definition ensureClient (msg : string) : M unit :=
  a <- read authState ;;
  p <- read pipeline ;;
  c <- read client ;;
  if isAuthenticated a && truthy p && missing c then
    emit (console_log msg) ;;
    let newClient := new_r2rClient (prop p "deploymentUrl") in
    accessToken <- sessionStorage_getItem "accessToken" ;;
    refreshToken <- sessionStorage_getItem "refreshToken" ;;
    let newClient :=
      match accessToken, refreshToken with
      | Some access, Some refresh =>
        if nonempty access && nonempty refresh then setTokens access refresh newClient
        else newClient
      | _, _ => newClient
      end in
    setClient (Some newClient)
  else ret tt.

Definition handleRouteChange : M unit :=
  ensureClient "Initializing client after route change".

(** The effects that follow a render, in the order of the text: the handle
    is rebuilt, [isReady] is set, [selectedModel] is stored. (The refresh
    timer is not part of this model: [refreshTokenPeriodically] is a step of
    its own.) *)
Definition effects : M unit :=
  ensureClient "Initializing client after authentication" ;;
  setIsReady true ;;
  m <- read selectedModel ;;
  sessionStorage_setItem "selectedModel" m.

Definition run (op : Op) : M unit :=
  match op with
  | op_login email password instanceUrl r probe now =>
    login email password instanceUrl r probe now ;; ret tt
  | op_loginWithToken token instanceUrl r probe now =>
    loginWithToken token instanceUrl r probe now ;; ret tt
  | op_logout r => logout r
  | op_refreshTokenPeriodically now r now' lo =>
    refreshTokenPeriodically now r now' lo
  | op_setViewMode mode => setViewMode mode
  | op_effects => effects
  | op_routeChange => handleRouteChange
  | op_register email password instanceUrl r => register email password instanceUrl r
  end.

(** The worlds of a browsing session that starts with a page load on the
    storage [store0]: after any operation, and after any reload of the page
    (a new start on the storage as it stands). An operation that throws
    leaves the world it had reached; a start that throws leaves no world. *)
Inductive reachable (store0 : gmap string string) : World -> Prop :=
  | reach_startup w t :
      startup store0 = (Return tt, w, t) -> reachable store0 w
  | reach_op w op o w' t :
      reachable store0 w -> run op w = (o, w', t) -> reachable store0 w'
  | reach_reload w w' t :
      reachable store0 w -> startup (sessionStorage w) = (Return tt, w', t) ->
      reachable store0 w'.

End Provider.

(** ** The invariant of [AuthState] *)

Definition AuthState_invariant (a : AuthState) : Prop :=
  isAuthenticated a = false -> email a = None /\ userRole a = None.

Definition AuthState_invariantb (a : AuthState) : bool :=
  isAuthenticated a ||
  (match email a with None => true | Some _ => false end &&
   match userRole a with None => true | Some _ => false end).

(** What the [authState] initialiser makes of the stored entry, when it does
    not throw. *)
Definition restored (entry : option string) : option AuthState :=
  match entry with
  | Some s =>
    if nonempty s then
      match JSON_parse s with
      | Some v => Some (if isAuthState v then AuthState_of_json v else defaultAuthState)
      | None => None
      end
    else Some defaultAuthState
  | None => Some defaultAuthState
  end.

(** The stored entry does not restore to a value that breaks the invariant. *)
Definition entry_ok (entry : option string) : bool :=
  match restored entry with
  | Some a => AuthState_invariantb a
  | None => true
  end.

Definition stored_authState_ok (store : gmap string string) : bool :=
  entry_ok (store !! "authState").

(** A world whose [authState] satisfies the invariant, on a storage whose
    [authState] entry restores to a value that satisfies it. *)
Definition sound (w : World) : Prop :=
  AuthState_invariantb (authState w) = true /\
  entry_ok (sessionStorage w !! "authState") = true.

(** ** Worlds to run the claims on *)

Definition someTokens : Tokens :=
  {| access_token := "access-1"; refresh_token := "refresh-1" |}.

(** A first page load of a browsing session, its effects done. *)
Definition fresh_world : World :=
  world_of (effects (fun _ => true) (world_of (startup ∅))).

(** The same after [login] at time [now], the probe succeeding. *)
Definition logged_in_world (now : Z) : World :=
  world_of (login "admin@example.com" "change_me_immediately" "http://localhost:8000"
              (Resolves someTokens) (Resolves tt) now fresh_world).

(** The same after a reload of the page and its effects. *)
Definition reloaded_world (now : Z) : World :=
  world_of (effects (fun _ => true)
              (world_of (startup (sessionStorage (logged_in_world now))))).

Definition the_client : Client :=
  {| baseUrl := Some (JString "http://localhost:8000");
     accessToken := Some "access-1"; refreshToken := Some "refresh-1" |}.

(** A page load on a storage that holds a chosen model, then a login. *)
Definition chosen_model_world : World :=
  world_of (login "admin@example.com" "change_me_immediately" "http://localhost:8000"
              (Resolves someTokens) (Resolves tt) 1000
              (world_of (effects (fun _ => true)
                 (world_of (startup {["selectedModel" := "gpt-4o"]}))))).

(** A storage whose [authState] entry passes the shape check and breaks the
    invariant: not authenticated, with an email and a role. *)
Definition forged_store : gmap string string :=
  {["authState" :=
      JSON_stringify
        (JObject [("isAuthenticated", JBool false);
                  ("email", JString "admin@example.com");
                  ("userRole", JString "admin")])]}.

(** ** The words of the claims *)

(** The calls of [refreshAccessToken] in a trace. *)
Definition is_refresh_call (e : Event) : bool :=
  match e with
  | backend (client_refreshAccessToken _) => true
  | _ => false
  end.

(** The state [LOGGED_OUT]: the default [authState], no handle, no
    deployment. *)
Definition logged_out (w : World) : Prop :=
  authState w = defaultAuthState /\ client w = None /\ pipeline w = JNull.

(** C8, as stated: after a successful token exchange both the access and the
    refresh token are in the storage. *)
Definition loginWithToken_persists_both_tokens (token instanceUrl result : string)
    (appSettings : Response unit) (now : Z) (w : World) : Prop :=
  let r := loginWithToken token instanceUrl (Resolves result) appSettings now w in
  is_Some (sessionStorage (world_of r) !! "accessToken") /\
  is_Some (sessionStorage (world_of r) !! "refreshToken").

(** C9, the formula of the specification:
    [effectiveRole = viewMode == user ? "user" : authState.userRole]. *)
Definition spec_effectiveRole (viewMode : ViewMode) (userRole : option Role)
  : option Role :=
  if Role_eqb viewMode user then Some user else userRole.

(** C7, as stated, the skip: with a session, a handle and a time of last
    login that is not null, a refresh less than five minutes after that time
    does nothing at all. *)
Definition refresh_skipped (w : World) (now : Z) : Prop :=
  forall (refreshResponse : Response Tokens) (now' : Z) (logoutResponse : Response unit),
    refreshTokenPeriodically now refreshResponse now' logoutResponse w = (Return tt, w, []).

(** C5, as stated: after [logout] the state is the logged-out one and every
    persisted field of the specification is absent from the storage. *)
Definition persisted_fields : list string :=
  ["authState"; "pipeline"; "accessToken"; "refreshToken"; "selectedModel"].

Definition logout_clears_all (w : World) (logoutResponse : Response unit) : Prop :=
  let w' := world_of (logout logoutResponse w) in
  logged_out w' /\
  Forall (fun k => sessionStorage w' !! k = None) persisted_fields.

(** The fields [logout] removes. *)
Definition cleared_fields : list string :=
  ["pipeline"; "authState"; "accessToken"; "refreshToken"].

(** C6, as stated, the fallback: a stored string is valid when it parses to a
    value that passes the shape check; any other stored string restores the
    default state with a warning, without throwing ([restores_default]). *)
Definition shape_valid (s : string) : bool :=
  match JSON_parse s with
  | Some v => isAuthState v
  | None => false
  end.

Definition restores_default (s : string) : Prop :=
  forall store : gmap string string,
    let w := blank (<["authState" := s]> store) in
    initAuthState w =
      (Return defaultAuthState, w,
       [console_warn "Invalid authState found in sessionStorage. Resetting to default."]).

(** ** The navigation bar, its items and its badge (NavBar.tsx) *)

Definition commonItems : list (string * string) :=
  [("/documents", "Documents"); ("/playground", "Playground")].

Definition adminItems : list (string * string) :=
  [("/users", "Users"); ("/logs", "Logs"); ("/analytics", "Analytics");
   ("/settings", "Settings")].

(** [NavItems] (lines 20 to 65): the links it lists, each a path and a label
    with whether it is the current page; [None] when it renders nothing. *)
Definition NavItems (isAuthenticated : bool) (effectiveRole : Role) (pathname : string)
  : option (list (string * string * bool)) :=
  let items :=
    if Role_eqb effectiveRole admin then commonItems ++ adminItems else commonItems in
  if negb isAuthenticated then None
  else Some (map (fun item => (item, String.eqb pathname (fst item))) items).

(** [AdminBadge] (lines 67 to 98): the text of the button and of its
    tooltip; [None] when it renders nothing. *)
Definition AdminBadge (isAdmin : bool) (viewMode : ViewMode) : option (string * string) :=
  if negb isAdmin then None
  else Some (if Role_eqb viewMode admin then "Admin View" else "User View",
             if Role_eqb viewMode admin then "You're interacting as an administrator."
             else "You're viewing as a regular user.").

(** The links and the badge [Navbar] shows in a world (lines 104 to 110 and
    158 to 169). *)
Definition Navbar_items (w : World) (pathname : string)
  : option (list (string * string * bool)) :=
  NavItems (isAuthenticated (authState w))
           (effectiveRole (viewMode w) (userRole (authState w))) pathname.

Definition Navbar_badge (w : World) : option (string * string) :=
  AdminBadge (isAdmin w) (viewMode w).

(** [toggleViewMode] (lines 112 to 114). *)
Definition toggleViewMode : M unit :=
  mode <- read viewMode ;;
  setViewMode (if Role_eqb mode admin then user else admin).

(** ** What a page load makes of the storage *)

(** What the [pipeline] initialiser makes of the stored entry, when it does
    not throw, and what the [selectedModel] initialiser makes of its own. *)
Definition restoredPipeline (entry : option string) : option json :=
  match entry with
  | Some s => if nonempty s then JSON_parse s else Some JNull
  | None => Some JNull
  end.

Definition restoredModel (entry : option string) : string :=
  match entry with
  | Some s => if nonempty s then s else ""
  | None => ""
  end.

(** The storage holds the state: a page load on it would start with the
    [authState], the [pipeline] and the [selectedModel] of the world. *)
Definition persisted (w : World) : Prop :=
  restored (sessionStorage w !! "authState") = Some (authState w) /\
  restoredPipeline (sessionStorage w !! "pipeline") = Some (pipeline w) /\
  restoredModel (sessionStorage w !! "selectedModel") = selectedModel w.

(** The tokens of the handle are the stored ones: its access token is the
    [accessToken] entry, its refresh token the [refreshToken] entry or the
    empty string. *)
Definition tokens_synced (w : World) : Prop :=
  forall c, client w = Some c ->
    (forall a, accessToken c = Some a -> sessionStorage w !! "accessToken" = Some a) /\
    (forall r, refreshToken c = Some r ->
       r = "" \/ sessionStorage w !! "refreshToken" = Some r).

(** The error of a login or of a registration that the backend rejects. *)
Definition rejected_call (op : Op) : option Exn :=
  match op with
  | op_login _ _ _ (Rejects error) _ _ => Some error
  | op_loginWithToken _ _ (Rejects error) _ _ => Some error
  | op_register _ _ _ (Rejects error) => Some error
  | _ => None
  end.

(** The backend calls of a trace. *)
Definition is_backend_call (e : Event) : bool :=
  match e with
  | backend _ => true
  | _ => false
  end.

(** The handle the effects build for the base URL [url] from the stored
    tokens: it gets the two tokens when both are stored and not empty, and
    none otherwise. *)
Definition rebuilt_client (url : jsval) (store : gmap string string) : Client :=
  let c := new_r2rClient url in
  match store !! "accessToken", store !! "refreshToken" with
  | Some access, Some refresh =>
    if nonempty access && nonempty refresh then setTokens access refresh c else c
  | _, _ => c
  end.

(** * Facts about JSON *)

Lemma code_N_of_ascii (c : ascii) : code c = N_of_ascii c.
Proof. destruct c as [[] [] [] [] [] [] [] []]; reflexivity. Qed.

(** *** The parser reads what the serialiser wrote *)

Lemma parse_chars_escape_char (c : ascii) (l : chars) :
  parse_chars (escape_char c ++ l) = prepend [c] (parse_chars l).
Proof.
  destruct c as [[] [] [] [] [] [] [] []]; reflexivity.
Qed.

Lemma parse_chars_escape (s rest : chars) :
  parse_chars (escape s ++ dquote :: rest) = Some (s, rest).
Proof.
  induction s as [|c s IH]; [reflexivity|].
  unfold escape in *. cbn [flat_map]. rewrite <- app_assoc.
  rewrite parse_chars_escape_char, IH. reflexivity.
Qed.

Lemma parse_chars_quote (s rest : chars) :
  parse_chars (List.tl (quote s) ++ rest) = Some (s, rest).
Proof.
  unfold quote. cbn [List.tl]. rewrite <- app_assoc. apply parse_chars_escape.
Qed.

Lemma str_chr (s : string) : str (chr s) = s.
Proof. apply string_of_list_ascii_of_string. Qed.

Lemma chr_str (l : chars) : chr (str l) = l.
Proof. apply list_ascii_of_string_of_list_ascii. Qed.

(** *** The fuel of [parse_text] is never used up *)

Lemma skip_ws_le (l : chars) : (length (skip_ws l) <= length l)%nat.
Proof.
  induction l as [|c l IH]; cbn; [lia|]. destruct (is_ws c); cbn; lia.
Qed.

Lemma parse_chars_shorter_aux (n : nat) :
  forall l s r, (length l <= n)%nat ->
    parse_chars l = Some (s, r) -> (length r < length l)%nat.
Proof.
  induction n as [|n IH]; intros l s r Hn H.
  - destruct l; [discriminate | cbn in Hn; lia].
  - destruct l as [|c l1]; [discriminate|]. cbn in Hn. cbn [parse_chars] in H.
    assert (Hpre : forall pre l', (length l' <= n)%nat ->
              prepend pre (parse_chars l') = Some (s, r) ->
              (length r < length l')%nat).
    { intros pre l' Hl' Hp. unfold prepend in Hp.
      destruct (parse_chars l') as [[s' r']|] eqn:E; [|discriminate].
      injection Hp as _ <-. eapply IH; eauto. }
    destruct (code c =? 34)%N.
    { injection H as _ <-. cbn. lia. }
    destruct (code c =? 92)%N.
    { destruct l1 as [|e l2]; [discriminate|]. cbn in Hn.
      destruct (simple_escape e).
      { apply Hpre in H; cbn; lia. }
      destruct (code e =? 117)%N; [|discriminate].
      destruct l2 as [|h1 [|h2 [|h3 [|h4 l3]]]]; try discriminate.
      destruct (hex4 h1 h2 h3 h4); [|discriminate]. cbn in Hn.
      apply Hpre in H; cbn; lia. }
    destruct (code c <? 32)%N; [discriminate|].
    apply Hpre in H; cbn; lia.
Qed.

Lemma parse_chars_shorter (l s r : chars) :
  parse_chars l = Some (s, r) -> (length r < length l)%nat.
Proof. apply (parse_chars_shorter_aux (length l)). lia. Qed.

Lemma take_digits_le (l ds r : chars) :
  take_digits l = (ds, r) -> (length r <= length l)%nat.
Proof.
  revert ds r. induction l as [|c l IH]; cbn; intros ds r H.
  - injection H as _ <-. cbn. lia.
  - destruct (is_digit c).
    + destruct (take_digits l) as [ds' r'] eqn:E. injection H as _ <-.
      specialize (IH _ _ eq_refl). lia.
    + injection H as _ <-. cbn. lia.
Qed.

Lemma parse_unsigned_shorter (l lit r : chars) :
  parse_unsigned l = Some (lit, r) -> (length r < length l)%nat.
Proof.
  unfold parse_unsigned. intros H.
  destruct (parse_int_part l) as [[i l1]|] eqn:Ei; [|discriminate].
  destruct (parse_frac_part l1) as [[f l2]|] eqn:Ef; [|discriminate].
  destruct (parse_exp_part l2) as [[e l3]|] eqn:Ee; [|discriminate].
  injection H as _ <-.
  assert (H1 : (length l1 < length l)%nat).
  { unfold parse_int_part in Ei. destruct l as [|c l']; [discriminate|].
    destruct (code c =? 48)%N.
    - injection Ei as _ <-. cbn. lia.
    - destruct (is_digit c); [|discriminate].
      destruct (take_digits l') as [ds r'] eqn:E. injection Ei as _ <-.
      apply take_digits_le in E. cbn. lia. }
  assert (H2 : (length l2 <= length l1)%nat).
  { unfold parse_frac_part in Ef. destruct l1 as [|c l']; [injection Ef as _ <-; lia|].
    destruct (code c =? 46)%N.
    - destruct (take_digits l') as [[|d ds] r'] eqn:E; [discriminate|].
      injection Ef as _ <-. apply take_digits_le in E. cbn. lia.
    - injection Ef as _ <-. lia. }
  assert (Hd : forall pre l' e' r', parse_exp_digits pre l' = Some (e', r') ->
            (length r' <= length l')%nat).
  { intros pre l' e' r'. unfold parse_exp_digits.
    destruct (take_digits l') as [[|d ds] r''] eqn:E; [discriminate|].
    intros H. injection H as _ <-. eapply take_digits_le; eauto. }
  assert (H3 : (length l3 <= length l2)%nat).
  { unfold parse_exp_part in Ee. destruct l2 as [|c l']; [injection Ee as _ <-; lia|].
    destruct ((code c =? 101)%N || (code c =? 69)%N).
    - destruct l' as [|sg l'']; [discriminate|].
      destruct ((code sg =? 43)%N || (code sg =? 45)%N);
        apply Hd in Ee; cbn in *; lia.
    - injection Ee as _ <-. lia. }
  lia.
Qed.

Lemma parse_number_shorter (l lit r : chars) :
  parse_number l = Some (lit, r) -> (length r < length l)%nat.
Proof.
  unfold parse_number. destruct l as [|c l1]; [discriminate|].
  destruct (code c =? 45)%N.
  - unfold prepend. destruct (parse_unsigned l1) as [[lit' r']|] eqn:E; [|discriminate].
    intros H. injection H as _ <-. apply parse_unsigned_shorter in E. cbn. lia.
  - apply parse_unsigned_shorter.
Qed.

Lemma expect_le (w l r : chars) :
  expect w l = Some r -> (length r <= length l)%nat.
Proof.
  revert l. induction w as [|a w IH]; intros l; cbn.
  - intros H. injection H as <-. lia.
  - destruct l as [|b l]; [discriminate|].
    destruct (code a =? code b)%N; [|discriminate].
    intros H. apply IH in H. cbn. lia.
Qed.

Lemma productive_error (l : chars) : productive PSyntaxError l.
Proof. split; [discriminate | intros v r H; discriminate]. Qed.

Lemma productive_ok (v : json) (r l : chars) :
  (length r < length l)%nat -> productive (POk v r) l.
Proof.
  intros H. split; [discriminate|]. intros v' r' E. injection E as _ <-. exact H.
Qed.

Lemma productive_mono (res : presult) (l l' : chars) :
  productive res l' -> (length l' <= length l)%nat -> productive res l.
Proof.
  intros [H1 H2] Hle. split; [exact H1|]. intros v r E.
  specialize (H2 v r E). lia.
Qed.

Create HintDb json.

#[local] Hint Resolve productive_error : json.

Lemma parse_fuel_aux (f : nat) :
  (forall l, (length l < f)%nat -> productive (parse_value f l) l) /\
  (forall l acc, (length l < f)%nat -> productive (parse_members f l acc) l) /\
  (forall l acc, (length l < f)%nat -> productive (parse_elements f l acc) l).
Proof.
  induction f as [|f (IHv & IHm & IHe)].
  { repeat split; intros; lia. }
  split; [|split].
  - intros l Hl. cbn [parse_value].
    pose proof (skip_ws_le l) as Hws.
    destruct (skip_ws l) as [|c l1]; auto with json. cbn in Hws.
    destruct (code c =? 123)%N.
    { pose proof (skip_ws_le l1) as Hws1.
      destruct (skip_ws l1) as [|c' l2]; auto with json. cbn in Hws1.
      destruct (code c' =? 125)%N; [apply productive_ok; lia|].
      eapply productive_mono; [apply IHm|]; cbn; lia. }
    destruct (code c =? 91)%N.
    { pose proof (skip_ws_le l1) as Hws1.
      destruct (skip_ws l1) as [|c' l2]; auto with json. cbn in Hws1.
      destruct (code c' =? 93)%N; [apply productive_ok; lia|].
      destruct (IHv (c' :: l2)) as [Hne Hlen]; [cbn; lia|].
      destruct (parse_value f (c' :: l2)) as [v l3| |]; auto with json; [|congruence].
      specialize (Hlen _ _ eq_refl). cbn in Hlen.
      eapply productive_mono; [apply IHe|]; lia. }
    destruct (code c =? 34)%N.
    { destruct (parse_chars l1) as [[s l2]|] eqn:E; auto with json.
      apply parse_chars_shorter in E. apply productive_ok. lia. }
    destruct (code c =? 116)%N.
    { destruct (expect (chr "rue") l1) as [l2|] eqn:E; auto with json.
      apply expect_le in E. apply productive_ok. lia. }
    destruct (code c =? 102)%N.
    { destruct (expect (chr "alse") l1) as [l2|] eqn:E; auto with json.
      apply expect_le in E. apply productive_ok. lia. }
    destruct (code c =? 110)%N.
    { destruct (expect (chr "ull") l1) as [l2|] eqn:E; auto with json.
      apply expect_le in E. apply productive_ok. lia. }
    destruct (parse_number (c :: l1)) as [[lit l2]|] eqn:E; auto with json.
    apply parse_number_shorter in E. cbn in E. apply productive_ok. lia.
  - intros l acc Hl. cbn [parse_members].
    pose proof (skip_ws_le l) as Hws.
    destruct (skip_ws l) as [|c l1]; auto with json. cbn in Hws.
    destruct (code c =? 34)%N; auto with json.
    destruct (parse_chars l1) as [[k l2]|] eqn:E; auto with json.
    apply parse_chars_shorter in E.
    pose proof (skip_ws_le l2) as Hws2.
    destruct (skip_ws l2) as [|c2 l3]; auto with json. cbn in Hws2.
    destruct (code c2 =? 58)%N; auto with json.
    destruct (IHv l3) as [Hne Hlen]; [lia|].
    destruct (parse_value f l3) as [v l4| |]; auto with json; [|congruence].
    specialize (Hlen _ _ eq_refl).
    pose proof (skip_ws_le l4) as Hws4.
    destruct (skip_ws l4) as [|c4 l5]; auto with json. cbn in Hws4.
    destruct (code c4 =? 44)%N.
    { eapply productive_mono; [apply IHm|]; lia. }
    destruct (code c4 =? 125)%N; auto with json.
    apply productive_ok. lia.
  - intros l acc Hl. cbn [parse_elements].
    pose proof (skip_ws_le l) as Hws.
    destruct (skip_ws l) as [|c l1]; auto with json. cbn in Hws.
    destruct (code c =? 44)%N.
    { destruct (IHv l1) as [Hne Hlen]; [lia|].
      destruct (parse_value f l1) as [v l2| |]; auto with json; [|congruence].
      specialize (Hlen _ _ eq_refl).
      eapply productive_mono; [apply IHe|]; lia. }
    destruct (code c =? 93)%N; auto with json.
    apply productive_ok. lia.
Qed.

(** [parse_text] never runs out of fuel: when [JSON_parse] has no value, the
    text is not JSON. *)
Lemma parse_fuel (l : chars) : parse_text l <> POutOfFuel.
Proof.
  unfold parse_text.
  destruct (parse_fuel_aux (S (length l))) as [Hv _].
  destruct (Hv l) as [Hne _]; [lia|].
  destruct (parse_value (S (length l)) l) as [v r| |]; [|discriminate|congruence].
  destruct (skip_ws r); discriminate.
Qed.

Lemma JSON_parse_None (s : string) :
  JSON_parse s = None <-> parse_text (chr s) = PSyntaxError.
Proof.
  unfold JSON_parse. pose proof (parse_fuel (chr s)) as Hf.
  destruct (parse_text (chr s)); split; intros; congruence.
Qed.

(** *** More fuel does not change a result *)

Lemma parse_mono_aux (f : nat) :
  (forall l f', parse_value f l <> POutOfFuel -> (f <= f')%nat ->
     parse_value f' l = parse_value f l) /\
  (forall l acc f', parse_members f l acc <> POutOfFuel -> (f <= f')%nat ->
     parse_members f' l acc = parse_members f l acc) /\
  (forall l acc f', parse_elements f l acc <> POutOfFuel -> (f <= f')%nat ->
     parse_elements f' l acc = parse_elements f l acc).
Proof.
  induction f as [|f (IHv & IHm & IHe)].
  { repeat split; intros; cbn in *; congruence. }
  split; [|split].
  - intros l [|f'] Hne Hle; [lia|]. cbn [parse_value] in *.
    destruct (skip_ws l) as [|c l1]; [reflexivity|].
    destruct (code c =? 123)%N.
    { destruct (skip_ws l1) as [|c' l2]; [reflexivity|].
      destruct (code c' =? 125)%N; [reflexivity|]. apply IHm; [exact Hne | lia]. }
    destruct (code c =? 91)%N; [|reflexivity].
    destruct (skip_ws l1) as [|c' l2]; [reflexivity|].
    destruct (code c' =? 93)%N; [reflexivity|].
    rewrite (IHv (c' :: l2) f'); [|destruct (parse_value f (c' :: l2)); congruence|lia].
    destruct (parse_value f (c' :: l2)) as [v l3| |]; [|reflexivity|reflexivity].
    apply IHe; [exact Hne | lia].
  - intros l acc [|f'] Hne Hle; [lia|]. cbn [parse_members] in *.
    destruct (skip_ws l) as [|c l1]; [reflexivity|].
    destruct (code c =? 34)%N; [|reflexivity].
    destruct (parse_chars l1) as [[k l2]|]; [|reflexivity].
    destruct (skip_ws l2) as [|c2 l3]; [reflexivity|].
    destruct (code c2 =? 58)%N; [|reflexivity].
    rewrite (IHv l3 f'); [|destruct (parse_value f l3); congruence|lia].
    destruct (parse_value f l3) as [v l4| |]; [|reflexivity|reflexivity].
    destruct (skip_ws l4) as [|c4 l5]; [reflexivity|].
    destruct (code c4 =? 44)%N; [|reflexivity].
    apply IHm; [exact Hne | lia].
  - intros l acc [|f'] Hne Hle; [lia|]. cbn [parse_elements] in *.
    destruct (skip_ws l) as [|c l1]; [reflexivity|].
    destruct (code c =? 44)%N; [|reflexivity].
    rewrite (IHv l1 f'); [|destruct (parse_value f l1); congruence|lia].
    destruct (parse_value f l1) as [v l2| |]; [|reflexivity|reflexivity].
    apply IHe; [exact Hne | lia].
Qed.

(** A value read with some fuel is the value [parse_text] reads. *)
Lemma parse_text_of_parse_value (f : nat) (l : chars) (v : json) :
  parse_value f l = POk v [] -> parse_text l = POk v [].
Proof.
  intros H. unfold parse_text.
  destruct (parse_mono_aux f) as [Hf _].
  destruct (parse_mono_aux (S (length l))) as [HF _].
  destruct (parse_fuel_aux (S (length l))) as [Hv _].
  destruct (Hv l) as [Hne _]; [lia|].
  assert (E : parse_value (S (length l)) l = POk v []).
  { rewrite <- (HF l (max f (S (length l)))); [|exact Hne|lia].
    rewrite (Hf l (max f (S (length l)))); [exact H|rewrite H; discriminate|lia]. }
  rewrite E. reflexivity.
Qed.

(** *** The parser reads back an object of strings, booleans and nulls *)

Lemma stringify_JObject (kvs : list (string * json)) :
  stringify (JObject kvs) = "{"%char :: join_comma (map member_text kvs) ++ ["}"%char].
Proof. reflexivity. Qed.

#[local] Arguments escape : simpl never.

Lemma parse_value_scalar (v : json) (f : nat) (rest : chars) :
  scalar v = true ->
  parse_value (S f) (stringify v ++ rest) = POk v rest.
Proof.
  destruct v as [|[]|lit|s|vs|kvs]; try discriminate; intros _; try reflexivity.
  cbn [stringify]. unfold quote. rewrite <- app_comm_cons, <- app_assoc.
  cbn [app parse_value skip_ws is_ws code bit N.eqb Pos.eqb orb].
  rewrite (parse_chars_escape (chr s)), str_chr. reflexivity.
Qed.

Lemma parse_member (f : nat) (k : string) (v : json) (c : ascii) (rest : chars)
    (acc : list (string * json)) :
  scalar v = true -> is_ws c = false ->
  parse_members (S (S f)) (member_text (k, v) ++ c :: rest) acc =
    if (code c =? 44)%N then parse_members (S f) rest (acc ++ [(k, v)])
    else if (code c =? 125)%N then POk (JObject (acc ++ [(k, v)])) rest
    else PSyntaxError.
Proof.
  intros Hv Hc. unfold member_text, quote.
  remember (S f) as f1 eqn:Ef1.
  rewrite <- !app_assoc. cbn [app].
  cbn [parse_members skip_ws is_ws code bit N.eqb Pos.eqb orb].
  rewrite <- !app_assoc. cbn [app].
  rewrite (parse_chars_escape (chr k)), str_chr.
  cbn [skip_ws is_ws code bit N.eqb Pos.eqb orb].
  subst f1. rewrite parse_value_scalar by exact Hv.
  cbn [skip_ws]. rewrite Hc. reflexivity.
Qed.

Lemma parse_members_scalars (kvs : list (string * json)) :
  forall (f : nat) (rest : chars) (acc : list (string * json)),
    kvs <> [] ->
    forallb (fun kv => scalar (snd kv)) kvs = true ->
    parse_members (S (length kvs + f)) (join_comma (map member_text kvs) ++ "}"%char :: rest) acc
      = POk (JObject (acc ++ kvs)) rest.
Proof.
  induction kvs as [|[k v] kvs IH]; intros f rest acc Hne Hs; [congruence|].
  cbn [forallb snd] in Hs. apply andb_prop in Hs as [Hv Hs].
  destruct kvs as [|kv' kvs'].
  - cbn [map join_comma length Nat.add]. rewrite parse_member by (exact Hv || reflexivity).
    reflexivity.
  - change (join_comma (map member_text ((k, v) :: kv' :: kvs')))
      with (member_text (k, v) ++ ","%char :: join_comma (map member_text (kv' :: kvs'))).
    rewrite <- app_assoc, <- app_comm_cons.
    change (S (length ((k, v) :: kv' :: kvs') + f))
      with (S (S (length (kv' :: kvs') + f))).
    rewrite parse_member by (exact Hv || reflexivity).
    cbn [code bit N.eqb Pos.eqb].
    rewrite IH by (congruence || exact Hs).
    rewrite <- app_assoc. reflexivity.
Qed.

Lemma parse_value_scalars (kvs : list (string * json)) (f : nat) :
  forallb (fun kv => scalar (snd kv)) kvs = true ->
  parse_value (S (S (length kvs + f))) (stringify (JObject kvs)) = POk (JObject kvs) [].
Proof.
  intros Hs. rewrite stringify_JObject.
  destruct kvs as [|kv kvs]; [reflexivity|].
  assert (Hhd : exists c l, join_comma (map member_text (kv :: kvs)) ++ ["}"%char]
                  = dquote :: l /\ c = dquote).
  { destruct kv as [k v]. destruct kvs; cbn [map join_comma member_text];
      unfold quote; repeat rewrite <- app_comm_cons; eauto. }
  destruct Hhd as (c & l & Hl & _).
  cbn [parse_value skip_ws is_ws code bit N.eqb Pos.eqb orb].
  rewrite Hl. cbn [skip_ws is_ws code bit N.eqb Pos.eqb orb]. rewrite <- Hl.
  rewrite (parse_members_scalars (kv :: kvs) f [] []); [reflexivity|congruence|exact Hs].
Qed.

(** [JSON.parse(JSON.stringify(o))] gives [o] back when [o] is an object of
    strings, booleans and nulls. *)
Lemma JSON_parse_stringify_scalars (kvs : list (string * json)) :
  forallb (fun kv => scalar (snd kv)) kvs = true ->
  JSON_parse (JSON_stringify (JObject kvs)) = Some (JObject kvs).
Proof.
  intros Hs. unfold JSON_parse, JSON_stringify. rewrite chr_str.
  rewrite (parse_text_of_parse_value _ _ _ (parse_value_scalars kvs 0 Hs)).
  reflexivity.
Qed.

(** * Facts about the model *)

Lemma AuthState_invariantb_spec (a : AuthState) :
  AuthState_invariantb a = true <-> AuthState_invariant a.
Proof.
  unfold AuthState_invariantb, AuthState_invariant.
  destruct a as [[] [e|] [r|]]; cbn; intuition congruence.
Qed.

(** *** What [login] stores is read back at the next start *)

Lemma JSON_parse_stringify_AuthState (a : AuthState) :
  JSON_parse (JSON_stringify (json_of_AuthState a)) = Some (json_of_AuthState a).
Proof.
  apply JSON_parse_stringify_scalars.
  destruct a as [b e r]; destruct e, r; reflexivity.
Qed.

Lemma JSON_parse_stringify_Pipeline (url : string) :
  JSON_parse (JSON_stringify (Pipeline url)) = Some (Pipeline url).
Proof. apply JSON_parse_stringify_scalars. reflexivity. Qed.

Lemma isAuthState_json_of_AuthState (a : AuthState) :
  isAuthState (json_of_AuthState a) = true.
Proof. destruct a as [b e r]; destruct e, r as [[]|]; reflexivity. Qed.

Lemma AuthState_of_json_of_AuthState (a : AuthState) :
  AuthState_of_json (json_of_AuthState a) = a.
Proof. destruct a as [b e r]; destruct e, r as [[]|]; reflexivity. Qed.

Lemma nonempty_stringify_AuthState (a : AuthState) :
  nonempty (JSON_stringify (json_of_AuthState a)) = true.
Proof. reflexivity. Qed.

Lemma restored_stringify (a : AuthState) :
  restored (Some (JSON_stringify (json_of_AuthState a))) = Some a.
Proof.
  unfold restored.
  rewrite nonempty_stringify_AuthState, JSON_parse_stringify_AuthState,
    isAuthState_json_of_AuthState, AuthState_of_json_of_AuthState.
  reflexivity.
Qed.

Lemma JSON_parse_nonempty (s : string) (v : json) :
  JSON_parse s = Some v -> nonempty s = true.
Proof. destruct s; [discriminate | reflexivity]. Qed.

(** *** Running the model

    [unfold_model] runs the monad and the operations and leaves the lookups
    and updates of the storage as they are. *)

Ltac unfold_model :=
  cbv beta iota zeta delta
    [startup UserProvider_init blank initPipeline initSelectedModel initAuthState
     JSON_parse_or_throw login loginWithToken logout refreshTokenPeriodically
     probeRole ensureClient effects handleRouteChange run register object_truthy
     bind try_catch ret throw emit read modify await
     sessionStorage_getItem sessionStorage_setItem sessionStorage_removeItem
     setAuthState setClient setPipeline setViewMode setLastLoginTime setIsReady
     with_sessionStorage
     sessionStorage authState client pipeline viewMode lastLoginTime
     selectedModel isReady isAuthenticated email userRole
     outcome_of world_of trace_of fst snd app missing].

Ltac unfold_model_in H :=
  cbv beta iota zeta delta
    [startup UserProvider_init blank initPipeline initSelectedModel initAuthState
     JSON_parse_or_throw login loginWithToken logout refreshTokenPeriodically
     probeRole ensureClient effects handleRouteChange run register object_truthy
     bind try_catch ret throw emit read modify await
     sessionStorage_getItem sessionStorage_setItem sessionStorage_removeItem
     setAuthState setClient setPipeline setViewMode setLastLoginTime setIsReady
     with_sessionStorage
     sessionStorage authState client pipeline viewMode lastLoginTime
     selectedModel isReady isAuthenticated email userRole
     outcome_of world_of trace_of fst snd app missing] in H.

(** The lookups in a storage that was updated, key by key. *)
Ltac lookups :=
  repeat first
    [ rewrite lookup_insert_eq | rewrite lookup_delete_eq
    | rewrite lookup_insert_ne by done | rewrite lookup_delete_ne by done ].

(** A case analysis on the innermost test a run in [H] is stuck on. *)
Ltac case_scrutinee H :=
  match type of H with
  | context [match ?x with _ => _ end] =>
    lazymatch x with
    | context [match _ with _ => _ end] => fail
    | _ => destruct x eqn:?
    end
  end.

(** *** The worlds of the examples *)

Example logged_in_world_client (now : Z) : client (logged_in_world now) = Some the_client.
Proof. reflexivity. Qed.

Example reloaded_world_state :
  authState (reloaded_world 1000) =
    {| isAuthenticated := true; email := Some "admin@example.com"; userRole := Some admin |} /\
  client (reloaded_world 1000) = Some the_client /\
  lastLoginTime (reloaded_world 1000) = None.
Proof. vm_compute. repeat split. Qed.

(** An empty stored string restores the default state with no warning. *)
Example restore_empty_string :
  initAuthState (blank {["authState" := ""]}) =
    (Return defaultAuthState, blank {["authState" := ""]}, []).
Proof. reflexivity. Qed.

(** *** The invariant along a session *)

Lemma entry_ok_stringify (a : AuthState) :
  isAuthenticated a = true ->
  entry_ok (Some (JSON_stringify (json_of_AuthState a))) = true.
Proof.
  intros Ha. unfold entry_ok. rewrite restored_stringify.
  unfold AuthState_invariantb. rewrite Ha. reflexivity.
Qed.

Lemma startup_restores (store : gmap string string) (w : World) (t : list Event) :
  startup store = (Return tt, w, t) ->
  sessionStorage w = store /\ restored (store !! "authState") = Some (authState w).
Proof.
  intros H. unfold restored. unfold_model_in H.
  repeat (case_scrutinee H; unfold_model_in H); try discriminate H;
    simplify_eq; split; reflexivity.
Qed.

Lemma startup_sound (store : gmap string string) (w : World) (t : list Event) :
  stored_authState_ok store = true ->
  startup store = (Return tt, w, t) -> sound w.
Proof.
  intros Hok H. apply startup_restores in H as [Hs Ha].
  unfold sound. rewrite Hs. split; [|exact Hok].
  unfold stored_authState_ok, entry_ok in Hok. rewrite Ha in Hok. exact Hok.
Qed.

Lemma run_sound (number_truthy : string -> bool) (op : Op) (w w' : World)
    (o : Outcome unit) (t : list Event) :
  sound w -> run number_truthy op w = (o, w', t) -> sound w'.
Proof.
  unfold sound. destruct w as [store a c p vm tm m rdy]. cbn [authState sessionStorage].
  intros [Ha Hs] H.
  destruct op; unfold_model_in H;
    repeat (case_scrutinee H; unfold_model_in H);
    simplify_eq; cbn [authState sessionStorage]; lookups;
    try (split; [assumption || reflexivity | assumption || reflexivity]);
    try (split; [reflexivity | apply entry_ok_stringify; reflexivity]).
Qed.

(** * The claims *)

(** C1, counterexample: the page starts on [forged_store] in a state that is
    not authenticated and has an email and a role. *)
Lemma invariant_broken_by_stored_value :
  exists w,
    reachable (fun _ => true) forged_store w /\
    authState w =
      {| isAuthenticated := false; email := Some "admin@example.com";
         userRole := Some admin |} /\
    ~ AuthState_invariant (authState w).
Proof.
  exists (world_of (startup forged_store)). split; [|split].
  - eapply reach_startup. vm_compute. reflexivity.
  - reflexivity.
  - intros H. destruct (H eq_refl) as [He _]. vm_compute in He. discriminate He.
Qed.

(** C1, amended. In a session that starts on a storage whose [authState]
    entry is absent, or is not restored, or restores to a value that
    satisfies the invariant (so on the empty storage of a new browsing
    session, and on any storage the session manager wrote), every state
    reached by start-up, [login], [loginWithToken], [logout],
    [refreshTokenPeriodically], [setViewMode], the effects, route changes
    and reloads satisfies the invariant: when [isAuthenticated] is false,
    [email] and [userRole] are null. *)
Theorem AuthState_invariant_reachable (number_truthy : string -> bool)
    (store0 : gmap string string) (w : World) :
  stored_authState_ok store0 = true ->
  reachable number_truthy store0 w ->
  AuthState_invariant (authState w).
Proof.
  intros Hok Hreach. apply AuthState_invariantb_spec.
  enough (Hsound : sound w) by apply Hsound.
  induction Hreach as [w t Hstart | w op o w' t _ IH Hrun | w w' t _ IH Hstart].
  - eapply startup_sound; eauto.
  - eapply run_sound; eauto.
  - eapply startup_sound; [apply IH | exact Hstart].
Qed.

(** A new browsing session: a login, a reload, and a refresh that fails and
    logs out. *)
Lemma AuthState_invariant_reachable_witness :
  AuthState_invariant
    (authState
       (world_of (refreshTokenPeriodically 2000 (Rejects (Error "unreachable")) 2001
                    (Resolves tt) (reloaded_world 1000)))).
Proof.
  apply (AuthState_invariant_reachable (fun _ => true) ∅); [reflexivity|].
  eapply (reach_op _ _ (reloaded_world 1000)
            (op_refreshTokenPeriodically 2000 (Rejects (Error "unreachable")) 2001
               (Resolves tt))); [|vm_compute; reflexivity].
  eapply (reach_op _ _ (world_of (startup (sessionStorage (logged_in_world 1000))))
            op_effects); [|vm_compute; reflexivity].
  eapply (reach_reload _ _ (logged_in_world 1000)); [|vm_compute; reflexivity].
  eapply (reach_op _ _ fresh_world
            (op_login "admin@example.com" "change_me_immediately" "http://localhost:8000"
               (Resolves someTokens) (Resolves tt) 1000)); [|vm_compute; reflexivity].
  eapply (reach_op _ _ (world_of (startup ∅)) op_effects); [|vm_compute; reflexivity].
  eapply reach_startup. vm_compute. reflexivity.
Defined.

(** C2. When the refresh is attempted and [refreshAccessToken] fails, with
    whatever error, the operation ends in [logout]: it returns normally, the
    state is the logged-out one, the stored tokens (and the stored
    [authState] and [pipeline]) are gone, and [refreshAccessToken] was called
    once only. *)
Theorem refresh_failure_logs_out (w : World) (c : Client) (now now' : Z)
    (error : Exn) (logoutResponse : Response unit) :
  isAuthenticated (authState w) = true ->
  client w = Some c ->
  within_five_minutes (lastLoginTime w) now = false ->
  let r := refreshTokenPeriodically now (Rejects error) now' logoutResponse w in
  outcome_of r = Return tt /\
  world_of r = world_of (logout logoutResponse w) /\
  logged_out (world_of r) /\
  sessionStorage (world_of r) !! "accessToken" = None /\
  sessionStorage (world_of r) !! "refreshToken" = None /\
  sessionStorage (world_of r) !! "authState" = None /\
  sessionStorage (world_of r) !! "pipeline" = None /\
  length (List.filter is_refresh_call (trace_of r)) = 1%nat.
Proof.
  destruct w as [store [auth e r] cl p vm t m rdy]. cbn. intros -> -> Hguard.
  unfold refreshTokenPeriodically. unfold_model. rewrite Hguard.
  destruct (instanceofAuthenticationError error), logoutResponse; unfold_model;
    unfold logged_out; repeat split; by simplify_map_eq.
Qed.

(** Six minutes after a login, a refresh that fails with an authentication
    error, the backend's logout failing as well. *)
Lemma refresh_failure_logs_out_witness :
  let error := {| message := "token expired"; instanceofError := true;
                  status := Some 401; instanceofAuthenticationError := true |} in
  let r := refreshTokenPeriodically 361000 (Rejects error) 361001
             (Rejects (Error "network")) (logged_in_world 1000) in
  outcome_of r = Return tt /\
  world_of r = world_of (logout (Rejects (Error "network")) (logged_in_world 1000)) /\
  logged_out (world_of r) /\
  sessionStorage (world_of r) !! "accessToken" = None /\
  sessionStorage (world_of r) !! "refreshToken" = None /\
  sessionStorage (world_of r) !! "authState" = None /\
  sessionStorage (world_of r) !! "pipeline" = None /\
  length (List.filter is_refresh_call (trace_of r)) = 1%nat.
Proof.
  apply (refresh_failure_logs_out (logged_in_world 1000) the_client); reflexivity.
Defined.

(** C3. When the handle's login call succeeds, the role is decided by the
    probe: admin when [appSettings] succeeds, user when it fails with status
    403, user as well when it fails in any other way; login then resolves
    with [{success: true, userRole}] and the state is authenticated with the
    email and that role. *)
Theorem login_role_from_probe (email password instanceUrl : string)
    (tokens : Tokens) (appSettings : Response unit) (now : Z) (w : World) :
  let role :=
    match appSettings with
    | Resolves _ => admin
    | Rejects error => if is403 error then user else user
    end in
  let r := login email password instanceUrl (Resolves tokens) appSettings now w in
  outcome_of r = Return {| success := true; result_userRole := role |} /\
  authState (world_of r) =
    {| isAuthenticated := true; email := Some email; userRole := Some role |}.
Proof.
  destruct w, appSettings as [[]|error]; unfold_model; [split; reflexivity|].
  destruct (is403 error); split; reflexivity.
Qed.

(** C4. When the handle's login call fails, the same error is thrown to the
    caller and nothing changes: not the state cells, not the storage; in
    particular [authState] is what it was, unauthenticated if it was so, and
    no handle is installed. When the call succeeds, the state is
    authenticated and a handle is there. *)
Theorem login_failure_and_success (email password instanceUrl : string)
    (appSettings : Response unit) (now : Z) (w : World) :
  (forall error : Exn,
     let r := login email password instanceUrl (Rejects error) appSettings now w in
     outcome_of r = Throw error /\
     world_of r = w /\
     authState (world_of r) = authState w /\
     isAuthenticated (authState (world_of r)) = isAuthenticated (authState w) /\
     client (world_of r) = client w) /\
  (forall tokens : Tokens,
     let r := login email password instanceUrl (Resolves tokens) appSettings now w in
     isAuthenticated (authState (world_of r)) = true /\
     client (world_of r) =
       Some {| baseUrl := Some (JString instanceUrl);
               accessToken := Some (access_token tokens);
               refreshToken := Some (refresh_token tokens) |}).
Proof.
  split.
  - intros error. destruct w. unfold_model. repeat split.
  - intros tokens. destruct w, appSettings as [[]|error]; unfold_model;
      [split; reflexivity|].
    destruct (is403 error); split; reflexivity.
Qed.

(** C5, counterexample: [logout] leaves [selectedModel] in the storage. *)
Lemma logout_keeps_selectedModel :
  sessionStorage (world_of (logout (Resolves tt) chosen_model_world)) !! "selectedModel"
    = Some "gpt-4o" /\
  ~ logout_clears_all chosen_model_world (Resolves tt).
Proof.
  split; [reflexivity|].
  intros [_ H]. unfold persisted_fields in H.
  do 4 (apply Forall_cons in H as [_ H]).
  apply Forall_cons in H as [H _].
  vm_compute in H. discriminate H.
Qed.

(** C5, amended. From any state, [logout] returns normally, also when the
    backend's logout fails; afterwards the state is the logged-out one, the
    handle and the deployment are cleared, and [authState], [pipeline],
    [accessToken] and [refreshToken] are absent from the storage, while
    [selectedModel] is left as it was; a second [logout] changes nothing. *)
Theorem logout_resets_and_is_idempotent (w : World)
    (logoutResponse logoutResponse' : Response unit) :
  let r := logout logoutResponse w in
  outcome_of r = Return tt /\
  logged_out (world_of r) /\
  Forall (fun k => sessionStorage (world_of r) !! k = None) cleared_fields /\
  sessionStorage (world_of r) !! "selectedModel" = sessionStorage w !! "selectedModel" /\
  world_of (logout logoutResponse' (world_of r)) = world_of r.
Proof.
  assert (Hidem : forall store : gmap string string,
            delete "refreshToken" (delete "accessToken" (delete "authState"
              (delete "pipeline"
                 (delete "refreshToken" (delete "accessToken" (delete "authState"
                    (delete "pipeline" store)))))))
            = delete "refreshToken" (delete "accessToken" (delete "authState"
                (delete "pipeline" store)))).
  { intros store. apply map_eq. intros k.
    destruct (decide (k = "refreshToken")) as [->|]; [by simplify_map_eq|].
    destruct (decide (k = "accessToken")) as [->|]; [by simplify_map_eq|].
    destruct (decide (k = "authState")) as [->|]; [by simplify_map_eq|].
    destruct (decide (k = "pipeline")) as [->|]; by simplify_map_eq. }
  destruct w as [store [auth e r] [c|] p vm t m rdy];
    destruct auth, logoutResponse, logoutResponse'; unfold_model;
    unfold logged_out, cleared_fields;
    (split; [reflexivity|]); (split; [repeat split|]);
    (split; [repeat constructor; by simplify_map_eq|]);
    (split; [by simplify_map_eq|]); rewrite Hidem; reflexivity.
Qed.

(** C6, the code at the failing input: a stored string that is not JSON is
    not a valid [authState], yet it does not restore the default state: the
    initialiser throws a [SyntaxError] on it, with no warning, and so does
    the first render of the page. *)
Lemma restore_throws_on_non_JSON :
  shape_valid "{" = false /\
  initAuthState (blank {["authState" := "{"]}) =
    (Throw SyntaxError, blank {["authState" := "{"]}, []) /\
  outcome_of (startup {["authState" := "{"]}) = Throw SyntaxError /\
  ~ restores_default "{".
Proof.
  split; [reflexivity|]. split; [reflexivity|]. split; [reflexivity|].
  intros H. specialize (H ∅). vm_compute in H. discriminate H.
Qed.

(** C6, what the code does bear out of the claim. An [AuthState] that is
    stored and restored on a fresh start comes back equal, with no warning,
    and so does the state [login] stored when the page is loaded again; a
    stored string that is JSON and whose value fails the shape check
    restores the default unauthenticated state, with a warning and without
    throwing. *)
Theorem authState_restoration :
  (forall (a : AuthState) (store : gmap string string),
     let w := blank (<["authState" := JSON_stringify (json_of_AuthState a)]> store) in
     initAuthState w = (Return a, w, [])) /\
  (forall (email password instanceUrl : string) (tokens : Tokens)
          (appSettings : Response unit) (now : Z) (w : World),
     let w1 := world_of (login email password instanceUrl (Resolves tokens)
                           appSettings now w) in
     let r := startup (sessionStorage w1) in
     outcome_of r = Return tt /\ trace_of r = [] /\
     authState (world_of r) = authState w1) /\
  (forall (s : string) (v : json),
     JSON_parse s = Some v -> isAuthState v = false -> restores_default s).
Proof.
  split; [|split].
  - intros a store. unfold_model. rewrite lookup_insert_eq.
    rewrite nonempty_stringify_AuthState, JSON_parse_stringify_AuthState,
      isAuthState_json_of_AuthState, AuthState_of_json_of_AuthState.
    reflexivity.
  - intros email password instanceUrl tokens appSettings now
      [store a c p vm t m rdy].
    assert (Hp : nonempty (JSON_stringify (Pipeline instanceUrl)) = true)
      by reflexivity.
    destruct appSettings as [[]|error]; unfold_model;
      [|destruct (is403 error)];
      unfold_model; lookups; unfold_model;
      rewrite Hp, JSON_parse_stringify_Pipeline;
      unfold_model; lookups;
      (destruct (store !! "selectedModel") as [sm|]; [destruct (nonempty sm)|]);
      unfold_model; lookups; unfold_model;
      rewrite nonempty_stringify_AuthState, JSON_parse_stringify_AuthState,
        isAuthState_json_of_AuthState, AuthState_of_json_of_AuthState;
      repeat split.
  - intros s v Hparse Hshape store. unfold_model. rewrite lookup_insert_eq.
    rewrite (JSON_parse_nonempty s v Hparse), Hparse, Hshape. reflexivity.
Qed.

(** A session of an administrator comes back; a role that is not one of the
    valid roles does not. *)
Lemma authState_restoration_witness :
  (forall store : gmap string string,
     let a := {| isAuthenticated := true; email := Some "admin@example.com";
                 userRole := Some admin |} in
     let w := blank (<["authState" := JSON_stringify (json_of_AuthState a)]> store) in
     initAuthState w = (Return a, w, [])) /\
  restores_default
    (JSON_stringify
       (JObject [("isAuthenticated", JBool false); ("email", JNull);
                 ("userRole", JString "superadmin")])).
Proof.
  split.
  - intros store. apply (proj1 authState_restoration).
  - eapply (proj2 (proj2 authState_restoration)); vm_compute; reflexivity.
Defined.


(** C7, what the code does bear out of the claim. With a session, a handle
    and a time of last login [T] that is neither null nor 0: less than
    300000 ms after [T] the refresh is
    skipped, with no backend call and no change of state or storage; from
    300000 ms on it calls [refreshAccessToken] and, when that succeeds,
    stores the two new tokens, sets them on the handle, which stays the
    handle of the session, and sets [lastLoginTime] to the current time. *)
Theorem refresh_five_minute_guard (w : World) (c : Client) (T now : Z) :
  isAuthenticated (authState w) = true ->
  client w = Some c ->
  lastLoginTime w = Some T ->
  T <> 0 ->
  (now - T < 300000 -> refresh_skipped w now) /\
  (300000 <= now - T ->
   forall (newTokens : Tokens) (now' : Z) (logoutResponse : Response unit),
     let r := refreshTokenPeriodically now (Resolves newTokens) now' logoutResponse w in
     outcome_of r = Return tt /\
     trace_of r =
       [console_log "Attempting to refresh token";
        backend (client_refreshAccessToken c);
        console_log "Token refreshed successfully"] /\
     sessionStorage (world_of r) !! "accessToken" = Some (access_token newTokens) /\
     sessionStorage (world_of r) !! "refreshToken" = Some (refresh_token newTokens) /\
     client (world_of r) =
       Some (setTokens (access_token newTokens) (refresh_token newTokens) c) /\
     lastLoginTime (world_of r) = Some now' /\
     authState (world_of r) = authState w).
Proof.
  destruct w as [store [auth e r] cl p vm t m rdy]. cbn. intros -> -> -> HT.
  assert (H0 : (T =? 0) = false) by (apply Z.eqb_neq; exact HT).
  split.
  - intros Hlt refreshResponse now' logoutResponse.
    unfold refreshTokenPeriodically, within_five_minutes. unfold_model.
    rewrite H0. replace (now - T <? 5 * 60 * 1000) with true by (symmetry; apply Z.ltb_lt; lia).
    reflexivity.
  - intros Hge newTokens now' logoutResponse.
    unfold refreshTokenPeriodically, within_five_minutes. unfold_model.
    rewrite H0. replace (now - T <? 5 * 60 * 1000) with false by (symmetry; apply Z.ltb_ge; lia).
    unfold_model. repeat split; by simplify_map_eq.
Qed.

(** Four and six minutes after a login at time 1000. *)
Lemma refresh_five_minute_guard_witness :
  refresh_skipped (logged_in_world 1000) 241000 /\
  (forall (newTokens : Tokens) (now' : Z) (logoutResponse : Response unit),
     let r := refreshTokenPeriodically 361000 (Resolves newTokens) now'
                logoutResponse (logged_in_world 1000) in
     outcome_of r = Return tt /\
     trace_of r =
       [console_log "Attempting to refresh token";
        backend (client_refreshAccessToken the_client);
        console_log "Token refreshed successfully"] /\
     sessionStorage (world_of r) !! "accessToken" = Some (access_token newTokens) /\
     sessionStorage (world_of r) !! "refreshToken" = Some (refresh_token newTokens) /\
     client (world_of r) =
       Some (setTokens (access_token newTokens) (refresh_token newTokens) the_client) /\
     lastLoginTime (world_of r) = Some now' /\
     authState (world_of r) = authState (logged_in_world 1000)).
Proof.
  split.
  - refine (proj1 (refresh_five_minute_guard (logged_in_world 1000) the_client
                     1000 241000 _ _ _ _) _); (reflexivity || lia).
  - refine (proj2 (refresh_five_minute_guard (logged_in_world 1000) the_client
                     1000 361000 _ _ _ _) _); (reflexivity || lia).
Defined.

(** C8, counterexample: on a first page load, a successful [loginWithToken]
    leaves no refresh token in the storage. *)
Lemma loginWithToken_no_refresh_token :
  ~ loginWithToken_persists_both_tokens "one-time-token" "http://localhost:8000"
      "access-1" (Resolves tt) 1000 fresh_world.
Proof.
  intros [_ [x Hx]]. vm_compute in Hx. discriminate Hx.
Qed.

(** C8, amended. A successful [loginWithToken] stores the access token and
    leaves the [refreshToken] entry of the storage as it was; it installs a
    new handle holding the access token and an empty refresh token, runs the
    role probe of [login], sets [authState] to authenticated with the empty
    string for email and the probed role and stores it, records the time, and
    sets and stores the deployment; it resolves with [{success: true,
    userRole}]. *)
Theorem loginWithToken_contract (token instanceUrl result : string)
    (appSettings : Response unit) (now : Z) (w : World) :
  let role := match appSettings with Resolves _ => admin | Rejects _ => user end in
  let newAuthState :=
    {| isAuthenticated := true; email := Some ""; userRole := Some role |} in
  let r := loginWithToken token instanceUrl (Resolves result) appSettings now w in
  outcome_of r = Return {| success := true; result_userRole := role |} /\
  sessionStorage (world_of r) !! "accessToken" = Some result /\
  sessionStorage (world_of r) !! "refreshToken" = sessionStorage w !! "refreshToken" /\
  client (world_of r) =
    Some {| baseUrl := Some (JString instanceUrl);
            accessToken := Some result; refreshToken := Some "" |} /\
  authState (world_of r) = newAuthState /\
  sessionStorage (world_of r) !! "authState" =
    Some (JSON_stringify (json_of_AuthState newAuthState)) /\
  lastLoginTime (world_of r) = Some now /\
  pipeline (world_of r) = Pipeline instanceUrl /\
  sessionStorage (world_of r) !! "pipeline" = Some (JSON_stringify (Pipeline instanceUrl)).
Proof.
  destruct w as [store a c p vm t m rdy], appSettings as [[]|error]; unfold_model.
  - repeat split; by simplify_map_eq.
  - destruct (is403 error); repeat split; by simplify_map_eq.
Qed.

(** C9, counterexample: in admin view with a null role, the navigation bar
    has role user, where the formula has null. *)
Lemma effectiveRole_admin_view_null_role :
  Some (effectiveRole admin None) <> spec_effectiveRole admin None.
Proof. discriminate. Qed.

(** C9, amended. The effective role is user in user view and otherwise the
    role of [authState], a null role counting as user: it is the formula of
    the specification whenever the view is user or the role is not null, and
    it is user in admin view with a null role. *)
Theorem effectiveRole_formula :
  (forall (viewMode : ViewMode) (r : Role),
     Some (effectiveRole viewMode (Some r)) = spec_effectiveRole viewMode (Some r)) /\
  (forall userRole : option Role,
     Some (effectiveRole user userRole) = spec_effectiveRole user userRole) /\
  (forall r : Role, effectiveRole admin (Some r) = r) /\
  effectiveRole admin None = user.
Proof.
  repeat split; try reflexivity. intros [] []; reflexivity.
Qed.

(** C10. With a session, a handle and no [lastLoginTime], the five-minute
    guard does not apply: whatever the time, [refreshTokenPeriodically] goes
    on to call [refreshAccessToken]. *)
Theorem refresh_without_lastLoginTime (w : World) (c : Client) (now now' : Z)
    (refreshResponse : Response Tokens) (logoutResponse : Response unit) :
  isAuthenticated (authState w) = true ->
  client w = Some c ->
  lastLoginTime w = None ->
  exists rest,
    trace_of (refreshTokenPeriodically now refreshResponse now' logoutResponse w) =
      console_log "Attempting to refresh token"
        :: backend (client_refreshAccessToken c) :: rest.
Proof.
  destruct w as [store [auth e r] cl p vm t m rdy]. cbn. intros -> -> ->.
  destruct refreshResponse as [tokens|error]; unfold_model; [eauto|].
  destruct (instanceofAuthenticationError error), logoutResponse; unfold_model; eauto.
Qed.

(** One second after the login whose tokens it holds, a reloaded page
    refreshes. *)
Lemma refresh_without_lastLoginTime_witness :
  exists rest,
    trace_of (refreshTokenPeriodically 2000 (Resolves someTokens) 2001 (Resolves tt)
                (reloaded_world 1000)) =
      console_log "Attempting to refresh token"
        :: backend (client_refreshAccessToken the_client) :: rest.
Proof.
  apply (refresh_without_lastLoginTime (reloaded_world 1000) the_client);
    vm_compute; reflexivity.
Defined.

(** * Further properties of the code *)

(** ** The navigation bar *)

(** X1. The links of the navigation bar: nothing without a session; with
    one, the common links, followed by the admin links exactly when
    [isSuperUser] holds. The bar and the provider, which compute the role
    each in its own way, agree. *)
Theorem Navbar_items_superuser (w : World) (pathname : string) :
  fmap (map fst) (Navbar_items w pathname) =
    if isAuthenticated (authState w)
    then Some (commonItems ++ (if isSuperUser w then adminItems else []))
    else None.
Proof.
  destruct w as [store [auth e [[]|]] c p [] t m rdy], auth; reflexivity.
Qed.

(** X2. Toggling the view mode twice gives the world back; one toggle
    changes the view mode and nothing else, so the badge is shown as before
    (an administrator in user view can switch back), and of two successive
    views at most one is that of a super user. *)
Theorem toggleViewMode_involution (w : World) :
  let w1 := world_of (toggleViewMode w) in
  world_of (toggleViewMode w1) = w /\
  viewMode w1 <> viewMode w /\
  authState w1 = authState w /\
  client w1 = client w /\
  sessionStorage w1 = sessionStorage w /\
  isAdmin w1 = isAdmin w /\
  (is_Some (Navbar_badge w1) <-> is_Some (Navbar_badge w)) /\
  isSuperUser w && isSuperUser w1 = false.
Proof.
  destruct w as [store [auth e [[]|]] c p [] t m rdy], auth;
    cbv -[is_Some]; repeat split; try discriminate; try tauto; eauto.
Qed.

(** ** Errors *)

(** X3. No operation throws but a [login], a [loginWithToken] or a
    [register] whose backend call is rejected, and these throw the backend's
    error: [logout], [refreshTokenPeriodically], [setViewMode], the effects
    and the route-change handler always return, whatever the backend
    answers, and [register] never throws its own "Client is not
    initialized". *)
Theorem run_throws_only_rejected_call (number_truthy : string -> bool)
    (op : Op) (w : World) :
  outcome_of (run number_truthy op w) =
    match rejected_call op with
    | Some error => Throw error
    | None => Return tt
    end.
Proof.
  destruct w as [store [auth e r] c p vm t m rdy].
  destruct op as [em pw url [tk|err] [[]|perr] now
                 | tok url [tk|err] [[]|perr] now
                 | lo | now [tk|err] now' lo | mode | | | em pw url [[]|err]];
    cbn [rejected_call]; unfold_model; try reflexivity;
    repeat match goal with
           | |- context [match ?x with _ => _ end] =>
             lazymatch x with
             | context [match _ with _ => _ end] => fail
             | _ => destruct x eqn:?
             end; unfold_model
           end; reflexivity.
Qed.

Lemma startup_outcome (store : gmap string string) :
  outcome_of (startup store) =
    match restoredPipeline (store !! "pipeline"), restored (store !! "authState") with
    | Some _, Some _ => Return tt
    | _, _ => Throw SyntaxError
    end /\
  sessionStorage (world_of (startup store)) = store.
Proof.
  unfold restoredPipeline, restored. unfold_model.
  destruct (store !! "pipeline") as [sp|]; [destruct (nonempty sp); [destruct (JSON_parse sp)|]|];
    unfold_model; try (split; reflexivity);
    (destruct (store !! "selectedModel") as [sm|]; [destruct (nonempty sm)|]);
    unfold_model;
    (destruct (store !! "authState") as [sa|];
       [destruct (nonempty sa); [destruct (JSON_parse sa) as [v|]; [destruct (isAuthState v)|]|]|]);
    unfold_model; split; reflexivity.
Qed.

(** X4. The first render throws exactly when the [pipeline] entry or the
    [authState] entry of the storage is a non-empty string that is not JSON,
    and then the error is a [SyntaxError]. The initialisers leave the
    storage as it is; the effects that follow write one entry,
    [selectedModel], with the model of the state. *)
Theorem startup_throws_on_non_JSON (store : gmap string string) :
  outcome_of (startup store) =
    match restoredPipeline (store !! "pipeline"), restored (store !! "authState") with
    | Some _, Some _ => Return tt
    | _, _ => Throw SyntaxError
    end /\
  sessionStorage (world_of (startup store)) = store /\
  (forall (number_truthy : string -> bool) (w : World),
     sessionStorage (world_of (effects number_truthy w)) =
       <["selectedModel" := selectedModel w]> (sessionStorage w)).
Proof.
  destruct (startup_outcome store) as [Ho Hs]. split; [exact Ho|]. split; [exact Hs|].
  intros number_truthy [st [auth e r] c p vm t m rdy]. unfold_model.
  destruct (auth && truthy number_truthy p && match c with Some _ => false | None => true end);
    unfold_model; [|reflexivity].
  destruct (st !! "accessToken") as [access|]; unfold_model;
    destruct (st !! "refreshToken") as [refresh|]; unfold_model; reflexivity.
Qed.

(** ** The storage and the state *)

Lemma restoredModel_Some (m : string) : restoredModel (Some m) = m.
Proof. destruct m; reflexivity. Qed.

Lemma restoredPipeline_stringify (url : string) :
  restoredPipeline (Some (JSON_stringify (Pipeline url))) = Some (Pipeline url).
Proof.
  unfold restoredPipeline.
  replace (nonempty (JSON_stringify (Pipeline url))) with true by reflexivity.
  apply JSON_parse_stringify_Pipeline.
Qed.

(** A page load that returns starts in the world the three initialisers
    read off the storage. *)
Lemma startup_world (store : gmap string string) (w : World) (t : list Event) :
  startup store = (Return tt, w, t) ->
  exists p a,
    restoredPipeline (store !! "pipeline") = Some p /\
    restored (store !! "authState") = Some a /\
    w = {| sessionStorage := store; authState := a; client := None; pipeline := p;
           viewMode := admin; lastLoginTime := None;
           selectedModel := restoredModel (store !! "selectedModel");
           isReady := false |}.
Proof.
  intros H. unfold restoredPipeline, restored, restoredModel. unfold_model_in H.
  repeat (case_scrutinee H; unfold_model_in H); try discriminate H;
    simplify_eq; eauto.
Qed.

Lemma startup_persisted (store : gmap string string) (w : World) (t : list Event) :
  startup store = (Return tt, w, t) -> persisted w.
Proof.
  intros H. apply startup_world in H as (p & a & Hp & Ha & ->).
  unfold persisted. cbn. auto.
Qed.

Lemma run_persisted (number_truthy : string -> bool) (op : Op) (w w' : World)
    (o : Outcome unit) (t : list Event) :
  persisted w -> run number_truthy op w = (o, w', t) -> persisted w'.
Proof.
  unfold persisted. destruct w as [store a c p vm tm m rdy].
  cbn [authState sessionStorage pipeline selectedModel].
  intros (Ha & Hp & Hm) H.
  destruct op; unfold_model_in H;
    repeat (case_scrutinee H; unfold_model_in H);
    simplify_eq; cbn [authState sessionStorage pipeline selectedModel]; lookups;
    rewrite ?restored_stringify, ?restoredPipeline_stringify, ?restoredModel_Some;
    repeat split; assumption || reflexivity.
Qed.

Lemma reachable_persisted (number_truthy : string -> bool)
    (store0 : gmap string string) (w : World) :
  reachable number_truthy store0 w -> persisted w.
Proof.
  induction 1 as [w t Hstart | w op o w' t _ IH Hrun | w w' t _ IH Hstart].
  - eapply startup_persisted; eauto.
  - eapply run_persisted; eauto.
  - eapply startup_persisted; eauto.
Qed.

(** X5. At any point of a session, the storage holds the state: a reload of
    the page returns and starts with the same [authState], [pipeline] and
    [selectedModel]; the handle, the view mode and the time of last login
    are not kept. *)
Theorem reload_restores_state (number_truthy : string -> bool)
    (store0 : gmap string string) (w : World) :
  reachable number_truthy store0 w ->
  let r := startup (sessionStorage w) in
  outcome_of r = Return tt /\
  authState (world_of r) = authState w /\
  pipeline (world_of r) = pipeline w /\
  selectedModel (world_of r) = selectedModel w /\
  sessionStorage (world_of r) = sessionStorage w /\
  client (world_of r) = None /\
  viewMode (world_of r) = admin /\
  lastLoginTime (world_of r) = None.
Proof.
  intros Hreach. apply reachable_persisted in Hreach as (Ha & Hp & Hm).
  destruct (startup_outcome (sessionStorage w)) as [Ho Hs].
  rewrite Hp, Ha in Ho.
  destruct (startup (sessionStorage w)) as [[o w'] t] eqn:E.
  cbn [outcome_of world_of fst snd] in *. subst o.
  apply startup_world in E as (p' & a' & Hp' & Ha' & ->).
  cbn. rewrite Hm. repeat split; congruence.
Qed.

(** A user view chosen after a login is lost on reload; the session is not. *)
Lemma reload_restores_state_witness :
  let w := world_of (setViewMode user (logged_in_world 1000)) in
  let r := startup (sessionStorage w) in
  outcome_of r = Return tt /\
  authState (world_of r) = authState w /\
  pipeline (world_of r) = pipeline w /\
  selectedModel (world_of r) = selectedModel w /\
  sessionStorage (world_of r) = sessionStorage w /\
  client (world_of r) = None /\
  viewMode (world_of r) = admin /\
  lastLoginTime (world_of r) = None.
Proof.
  apply (reload_restores_state (fun _ => true) ∅).
  eapply (reach_op _ _ (logged_in_world 1000) (op_setViewMode user));
    [|vm_compute; reflexivity].
  eapply (reach_op _ _ fresh_world
            (op_login "admin@example.com" "change_me_immediately" "http://localhost:8000"
               (Resolves someTokens) (Resolves tt) 1000)); [|vm_compute; reflexivity].
  eapply (reach_op _ _ (world_of (startup ∅)) op_effects); [|vm_compute; reflexivity].
  eapply reach_startup. vm_compute. reflexivity.
Defined.

Lemma run_tokens_synced (number_truthy : string -> bool) (op : Op) (w w' : World)
    (o : Outcome unit) (t : list Event) :
  tokens_synced w -> run number_truthy op w = (o, w', t) -> tokens_synced w'.
Proof.
  unfold tokens_synced. destruct w as [store a c p vm tm m rdy].
  cbn [client sessionStorage]. intros Hsync H.
  destruct op; unfold_model_in H;
    repeat (case_scrutinee H; unfold_model_in H);
    simplify_eq; cbn [client sessionStorage];
    intros handle Hhandle; simplify_eq;
    cbn [accessToken refreshToken setTokens new_r2rClient];
    try (specialize (Hsync _ eq_refl) as [Hacc Href]);
    (split; [intros x Hx | intros x Hx]); simplify_eq; lookups; auto.
Qed.

(** X6. As long as the operations run one after the other, each to its end
    before the next begins (the steps of [reachable]), the tokens of the
    handle are the stored ones: its access token is the [accessToken] entry
    of the storage, and its refresh token is the [refreshToken] entry or the
    empty string. (A login that completes while a refresh is awaiting its
    answer is no step of [reachable], and is not covered.) *)
Theorem handle_tokens_are_stored (number_truthy : string -> bool)
    (store0 : gmap string string) (w : World) :
  reachable number_truthy store0 w -> tokens_synced w.
Proof.
  induction 1 as [w t Hstart | w op o w' t _ IH Hrun | w w' t _ IH Hstart].
  - apply startup_world in Hstart as (p & a & _ & _ & ->). intros c Hc. discriminate Hc.
  - eapply run_tokens_synced; eauto.
  - apply startup_world in Hstart as (p & a & _ & _ & ->). intros c Hc. discriminate Hc.
Qed.

(** ** Page loads and effects after an operation *)

Lemma startup_returns (store : gmap string string) (p : json) (a : AuthState) :
  restoredPipeline (store !! "pipeline") = Some p ->
  restored (store !! "authState") = Some a ->
  outcome_of (startup store) = Return tt /\
  world_of (startup store) =
    {| sessionStorage := store; authState := a; client := None; pipeline := p;
       viewMode := admin; lastLoginTime := None;
       selectedModel := restoredModel (store !! "selectedModel");
       isReady := false |}.
Proof.
  intros Hp Ha. destruct (startup_outcome store) as [Ho _]. rewrite Hp, Ha in Ho.
  destruct (startup store) as [[o w] t] eqn:E.
  cbn [outcome_of world_of fst snd] in *. subst o. split; [reflexivity|].
  apply startup_world in E as (p' & a' & Hp' & Ha' & ->). congruence.
Qed.

(** What the effects do to a world. *)
Lemma effects_world (number_truthy : string -> bool) (w : World) :
  let build :=
    isAuthenticated (authState w) && truthy number_truthy (pipeline w)
      && missing (client w) in
  effects number_truthy w =
    (Return tt,
     {| sessionStorage := <["selectedModel" := selectedModel w]> (sessionStorage w);
        authState := authState w;
        client :=
          if build
          then Some (rebuilt_client (prop (pipeline w) "deploymentUrl") (sessionStorage w))
          else client w;
        pipeline := pipeline w; viewMode := viewMode w;
        lastLoginTime := lastLoginTime w; selectedModel := selectedModel w;
        isReady := true |},
     if build then [console_log "Initializing client after authentication"] else []).
Proof.
  destruct w as [store [auth e r] c p vm t m rdy]. unfold rebuilt_client. unfold_model.
  destruct (auth && truthy number_truthy p && match c with Some _ => false | None => true end);
    unfold_model; [|reflexivity].
  destruct (store !! "accessToken") as [access|]; unfold_model;
    destruct (store !! "refreshToken") as [refresh|]; unfold_model; reflexivity.
Qed.

(** X7. Rebuilding the handle is idempotent: once the client effect or the
    route-change handler, which share their body, has run, running either
    of them again builds no handle, logs nothing and changes nothing. *)
Theorem ensureClient_idempotent (number_truthy : string -> bool)
    (msg msg' : string) (w : World) :
  let w1 := world_of (ensureClient number_truthy msg w) in
  ensureClient number_truthy msg' w1 = (Return tt, w1, []).
Proof.
  destruct w as [store [[] e r] [c|] p vm t m rdy]; unfold_model;
    destruct (truthy number_truthy p) eqn:Ep; cbn [andb]; unfold_model;
    rewrite ?Ep; cbn [andb]; reflexivity.
Qed.

(** X8. A reload after a login rebuilds the handle from the storage: the
    state is authenticated as before, and the handle is the one [login]
    installed when both tokens are non-empty strings, and a handle for the
    same URL with no token at all when one of them is empty. *)
Theorem reload_after_login (number_truthy : string -> bool)
    (email password instanceUrl : string) (tokens : Tokens)
    (appSettings : Response unit) (now : Z) (w : World) :
  let w1 := world_of (login email password instanceUrl (Resolves tokens)
                        appSettings now w) in
  let w2 := world_of (effects number_truthy (world_of (startup (sessionStorage w1)))) in
  authState w2 = authState w1 /\
  pipeline w2 = pipeline w1 /\
  client w2 =
    (if nonempty (access_token tokens) && nonempty (refresh_token tokens)
     then client w1
     else Some (new_r2rClient (Some (JString instanceUrl)))) /\
  lastLoginTime w2 = None.
Proof.
  destruct w as [store a c p vm t m rdy].
  assert (H : forall role, let a1 := {| isAuthenticated := true; email := Some email;
                                         userRole := Some role |} in
            let store1 :=
              <["pipeline" := JSON_stringify (Pipeline instanceUrl)]>
                (<["authState" := JSON_stringify (json_of_AuthState a1)]>
                   (<["refreshToken" := refresh_token tokens]>
                      (<["accessToken" := access_token tokens]> store))) in
            let w2 := world_of (effects number_truthy (world_of (startup store1))) in
            authState w2 = a1 /\ pipeline w2 = Pipeline instanceUrl /\
            client w2 =
              (if nonempty (access_token tokens) && nonempty (refresh_token tokens)
               then Some (setTokens (access_token tokens) (refresh_token tokens)
                            (new_r2rClient (Some (JString instanceUrl))))
               else Some (new_r2rClient (Some (JString instanceUrl)))) /\
            lastLoginTime w2 = None).
  { intros role a1 store1.
    destruct (startup_returns store1 (Pipeline instanceUrl) a1) as [_ Hw].
    - unfold store1. lookups. apply restoredPipeline_stringify.
    - unfold store1. lookups. apply restored_stringify.
    - cbn zeta. rewrite Hw, effects_world. cbn. unfold rebuilt_client, store1. lookups.
      destruct (nonempty (access_token tokens) && nonempty (refresh_token tokens));
        repeat split. }
  destruct appSettings as [[]|error]; unfold_model; [apply (H admin)|].
  destruct (is403 error); apply (H user).
Qed.

(** X9. A reload after a [loginWithToken] rebuilds a handle that has the
    exchanged access token only if a [refreshToken] entry was in the storage
    already, which it pairs it with: with no such entry, or an empty one, or
    an empty access token, the rebuilt handle has no token at all. *)
Theorem reload_after_loginWithToken (number_truthy : string -> bool)
    (token instanceUrl result : string) (appSettings : Response unit)
    (now : Z) (w : World) :
  let w1 := world_of (loginWithToken token instanceUrl (Resolves result)
                        appSettings now w) in
  let w2 := world_of (effects number_truthy (world_of (startup (sessionStorage w1)))) in
  let c := new_r2rClient (Some (JString instanceUrl)) in
  authState w2 = authState w1 /\
  client w2 =
    Some match sessionStorage w !! "refreshToken" with
         | Some stale =>
           if nonempty result && nonempty stale then setTokens result stale c else c
         | None => c
         end.
Proof.
  destruct w as [store a cl p vm t m rdy].
  assert (H : forall role, let a1 := {| isAuthenticated := true; email := Some "";
                                         userRole := Some role |} in
            let store1 :=
              <["pipeline" := JSON_stringify (Pipeline instanceUrl)]>
                (<["authState" := JSON_stringify (json_of_AuthState a1)]>
                   (<["accessToken" := result]> store)) in
            let w2 := world_of (effects number_truthy (world_of (startup store1))) in
            let c := new_r2rClient (Some (JString instanceUrl)) in
            authState w2 = a1 /\
            client w2 =
              Some match store !! "refreshToken" with
                   | Some stale =>
                     if nonempty result && nonempty stale
                     then setTokens result stale c else c
                   | None => c
                   end).
  { intros role a1 store1.
    destruct (startup_returns store1 (Pipeline instanceUrl) a1) as [_ Hw].
    - unfold store1. lookups. apply restoredPipeline_stringify.
    - unfold store1. lookups. apply restored_stringify.
    - cbn zeta. rewrite Hw, effects_world. cbn. unfold rebuilt_client, store1. lookups.
      split; reflexivity. }
  destruct appSettings as [[]|error]; unfold_model; [apply (H admin)|].
  destruct (is403 error); apply (H user).
Qed.

(** X10. After [logout], whatever the storage held before, a reload returns
    with no warning and starts logged out, and its effects build no handle
    and log nothing. *)
Theorem reload_after_logout (number_truthy : string -> bool)
    (logoutResponse : Response unit) (w : World) :
  let w1 := world_of (logout logoutResponse w) in
  let r := startup (sessionStorage w1) in
  outcome_of r = Return tt /\
  trace_of r = [] /\
  logged_out (world_of r) /\
  logged_out (world_of (effects number_truthy (world_of r))) /\
  trace_of (effects number_truthy (world_of r)) = [].
Proof.
  assert (H : forall store : gmap string string,
            let store1 := delete "refreshToken" (delete "accessToken"
                            (delete "authState" (delete "pipeline" store))) in
            let r := startup store1 in
            outcome_of r = Return tt /\ trace_of r = [] /\
            logged_out (world_of r) /\
            logged_out (world_of (effects number_truthy (world_of r))) /\
            trace_of (effects number_truthy (world_of r)) = []).
  { intros store store1.
    assert (Hp : store1 !! "pipeline" = None) by (unfold store1; by lookups).
    assert (Ha : store1 !! "authState" = None) by (unfold store1; by lookups).
    cbn zeta. unfold logged_out. unfold_model. rewrite Hp. unfold_model.
    destruct (store1 !! "selectedModel") as [sm|]; [destruct (nonempty sm)|];
      unfold_model; rewrite Ha; unfold_model; repeat split. }
  destruct w as [store [[] e r] [c|] p vm t m rdy], logoutResponse;
    unfold_model; apply H.
Qed.

(** ** Operations one after the other *)

(** X11. The last login wins: a successful [login] after another successful
    [login] or [loginWithToken] leaves the world it would have left without
    the earlier one. (Not so for a [loginWithToken] that comes last: the
    refresh token of the earlier session stays in the storage.) *)
Theorem last_login_wins (email password instanceUrl : string) (tokens : Tokens)
    (appSettings : Response unit) (now : Z) (w : World) :
  let final w0 :=
    world_of (login email password instanceUrl (Resolves tokens) appSettings now w0) in
  (forall email' password' instanceUrl' tokens' appSettings' now',
     final (world_of (login email' password' instanceUrl' (Resolves tokens')
                        appSettings' now' w)) = final w) /\
  (forall token' instanceUrl' result' appSettings' now',
     final (world_of (loginWithToken token' instanceUrl' (Resolves result')
                        appSettings' now' w)) = final w).
Proof.
  destruct w as [store a c p vm t m rdy].
  split; intros;
    destruct appSettings as [[]|error], appSettings' as [[]|error'];
    unfold_model;
    repeat match goal with
           | |- context [is403 ?x] => destruct (is403 x)
           end;
    f_equal; apply map_eq; intros k;
    (destruct (decide (k = "pipeline")) as [->|]; [by simplify_map_eq|]);
    (destruct (decide (k = "authState")) as [->|]; [by simplify_map_eq|]);
    (destruct (decide (k = "refreshToken")) as [->|]; [by simplify_map_eq|]);
    (destruct (decide (k = "accessToken")) as [->|]; by simplify_map_eq).
Qed.

(** The storage after a second user came in by token: the refresh token of
    the first is still there. *)
Example loginWithToken_keeps_earlier_refresh_token :
  sessionStorage
    (world_of (loginWithToken "one-time-token" "http://localhost:8000"
                 (Resolves "access-2") (Resolves tt) 5000 (logged_in_world 1000)))
    !! "refreshToken" = Some "refresh-1".
Proof. reflexivity. Qed.

(** X12. Tokens that were just minted are not refreshed: after a successful
    [login] or [loginWithToken] at a time other than 0, a refresh less than
    300000 ms later does nothing. *)
Theorem no_refresh_right_after_login (now now2 : Z) (w : World) :
  now <> 0 -> now2 - now < 300000 ->
  (forall email password instanceUrl tokens appSettings,
     refresh_skipped
       (world_of (login email password instanceUrl (Resolves tokens) appSettings now w))
       now2) /\
  (forall token instanceUrl result appSettings,
     refresh_skipped
       (world_of (loginWithToken token instanceUrl (Resolves result) appSettings now w))
       now2).
Proof.
  intros Hnow Hlt.
  assert (H0 : (now =? 0) = false) by (apply Z.eqb_neq; exact Hnow).
  assert (H5 : (now2 - now <? 5 * 60 * 1000) = true) by (apply Z.ltb_lt; lia).
  destruct w as [store a c p vm t m rdy].
  split; intros; intros refreshResponse now' logoutResponse;
    destruct appSettings as [[]|error];
    unfold refreshTokenPeriodically, within_five_minutes; unfold_model;
    repeat match goal with
           | |- context [is403 ?x] => destruct (is403 x)
           end;
    unfold_model; rewrite H0, H5; reflexivity.
Qed.

Lemma no_refresh_right_after_login_witness :
  refresh_skipped
    (world_of (loginWithToken "one-time-token" "http://localhost:8000"
                 (Resolves "access-1") (Rejects (Error "forbidden")) 1000 fresh_world))
    300999.
Proof.
  refine (proj2 (no_refresh_right_after_login 1000 300999 fresh_world _ _) _ _ _ _); lia.
Defined.

(** X13. A refresh that fires after [logout] does nothing: no backend call,
    no log, no change. *)
Theorem refresh_after_logout (w : World) (logoutResponse : Response unit) (now : Z) :
  refresh_skipped (world_of (logout logoutResponse w)) now.
Proof.
  intros refreshResponse now' logoutResponse'.
  destruct w as [store [[] e r] [c|] p vm t m rdy], logoutResponse;
    unfold_model; reflexivity.
Qed.

(** X14. [logout] undoes a login but for the time of last login: [logout]
    after a successful [login] leaves the storage and the state that
    [logout] alone leaves, with [lastLoginTime] still the time of the login;
    and a second [logout] makes no backend call. *)
Theorem logout_after_login (email password instanceUrl : string) (tokens : Tokens)
    (appSettings : Response unit) (now : Z)
    (logoutResponse logoutResponse' : Response unit) (w : World) :
  let w1 := world_of (login email password instanceUrl (Resolves tokens)
                        appSettings now w) in
  world_of (logout logoutResponse w1) =
    world_of (setLastLoginTime (Some now) (world_of (logout logoutResponse' w))) /\
  List.filter is_backend_call
    (trace_of (logout logoutResponse' (world_of (logout logoutResponse w)))) = [].
Proof.
  destruct w as [store [auth e r] c p vm t m rdy]. split.
  - destruct appSettings as [[]|error], logoutResponse, logoutResponse', c, auth;
      unfold_model;
      repeat match goal with
             | |- context [is403 ?x] => destruct (is403 x)
             end;
      f_equal; apply map_eq; intros k;
      (destruct (decide (k = "pipeline")) as [->|]; [by simplify_map_eq|]);
      (destruct (decide (k = "authState")) as [->|]; [by simplify_map_eq|]);
      (destruct (decide (k = "refreshToken")) as [->|]; [by simplify_map_eq|]);
      (destruct (decide (k = "accessToken")) as [->|]; by simplify_map_eq).
  - destruct logoutResponse, logoutResponse', c, auth; reflexivity.
Qed.

(** ** The shape check *)

(** X15. What passes [isAuthState] is an object whose three fields have the
    values of an [AuthState]: a boolean, a string or null, and admin, user
    or null. The fields read through [AuthState_of_json] are those of the
    object. Nothing but an object passes. *)
Theorem isAuthState_sound (obj : json) :
  isAuthState obj = true ->
  (exists members, obj = JObject members) /\
  let a := AuthState_of_json obj in
  prop obj "isAuthenticated" = prop (json_of_AuthState a) "isAuthenticated" /\
  prop obj "email" = prop (json_of_AuthState a) "email" /\
  prop obj "userRole" = prop (json_of_AuthState a) "userRole".
Proof.
  unfold isAuthState. intros H.
  destruct obj as [| | | | |members]; try discriminate H.
  split; [eauto|]. unfold AuthState_of_json.
  cbn [prop typeof is_null negb jstype_eqb andb] in *.
  apply andb_prop in H as [H Hrole]. apply andb_prop in H as [Hauth Hemail].
  assert (Ea : exists b, lookup_member "isAuthenticated" members = Some (JBool b)).
  { destruct (lookup_member "isAuthenticated" members) as [[|b| | | |]|];
      try discriminate Hauth. eauto. }
  destruct Ea as [b ->].
  assert (Ee : lookup_member "email" members = Some JNull \/
               exists s, lookup_member "email" members = Some (JString s)).
  { destruct (lookup_member "email" members) as [[| | |s| |]|];
      try discriminate Hemail; eauto. }
  assert (Er : lookup_member "userRole" members = Some JNull \/
               lookup_member "userRole" members = Some (JString "admin") \/
               lookup_member "userRole" members = Some (JString "user")).
  { destruct (lookup_member "userRole" members) as [[| | |role| |]|];
      try discriminate Hrole; auto.
    cbn [includes existsb is_null] in Hrole. rewrite !orb_false_r in Hrole.
    apply orb_prop in Hrole as [Hr|Hr]; apply String.eqb_eq in Hr; subst role; auto. }
  destruct Ee as [-> | [s ->]], Er as [-> | [-> | ->]]; repeat split.
Qed.

Lemma isAuthState_sound_witness :
  let obj := JObject [("userRole", JString "user"); ("extra", JNum "1");
                      ("email", JNull); ("isAuthenticated", JBool true)] in
  (exists members, obj = JObject members) /\
  let a := AuthState_of_json obj in
  prop obj "isAuthenticated" = prop (json_of_AuthState a) "isAuthenticated" /\
  prop obj "email" = prop (json_of_AuthState a) "email" /\
  prop obj "userRole" = prop (json_of_AuthState a) "userRole".
Proof.
  apply isAuthState_sound. reflexivity.
Defined.

(** A world of a session: a login, a refresh six minutes later. *)
Lemma handle_tokens_are_stored_witness :
  tokens_synced
    (world_of (refreshTokenPeriodically 361000
                 (Resolves {| access_token := "access-2"; refresh_token := "refresh-2" |})
                 361001 (Resolves tt) (logged_in_world 1000))).
Proof.
  apply (handle_tokens_are_stored (fun _ => true) ∅).
  eapply (reach_op _ _ (logged_in_world 1000)
            (op_refreshTokenPeriodically 361000
               (Resolves {| access_token := "access-2"; refresh_token := "refresh-2" |})
               361001 (Resolves tt))); [|vm_compute; reflexivity].
  eapply (reach_op _ _ fresh_world
            (op_login "admin@example.com" "change_me_immediately" "http://localhost:8000"
               (Resolves someTokens) (Resolves tt) 1000)); [|vm_compute; reflexivity].
  eapply (reach_op _ _ (world_of (startup ∅)) op_effects); [|vm_compute; reflexivity].
  eapply reach_startup. vm_compute. reflexivity.
Defined.
